(** * The CLI plugins [fetch] and [hardhat]

    A shallow embedding of [packages/cli/src/plugins/fetch.ts] (the [fetch]
    plugin) and of the [hardhat] plugin that follows it, with the properties
    the specification states about them.

    Asynchronous functions are run to completion at each [await], so an
    [async] function is a computation in a state-and-exception monad over the
    part of the outside world it touches: the files it reads and writes and a
    log of the input/output it performs, in order.  What the code leaves to
    libraries or to its caller (the network, external processes, glob
    matching, path manipulation) is a field of an environment record. *)

From Stdlib Require Import String Ascii List ZArith.
From stdpp Require Import base list strings gmap.
Import ListNotations.
Local Open Scope string_scope.

#[local] Set Warnings "-register-all".

(** ** JavaScript values read from JSON files *)

(** The result of [JSON.parse].  Only whether a number is zero is ever
    observed, so integers stand for the numbers; an object is the list of its
    own properties. *)
Inductive json : Type :=
| JNull
| JBool (b : bool)
| JNumber (n : Z)
| JString (s : string)
| JArray (items : list json)
| JObject (members : list (string * json)).

(** [!!v]: the values JavaScript treats as true in a condition. *)
Definition truthy (v : json) : bool :=
  match v with
  | JNull => false
  | JBool b => b
  | JNumber n => negb (n =? 0)%Z
  | JString s => negb (String.eqb s "")
  | JArray _ => true
  | JObject _ => true
  end.

(** ** Exceptions *)

Inductive error : Type :=
| Thrown (label : string)
    (** raised outside the plugin: by the network layer, an external process
        or a function the caller supplied *)
| ENOENT (path : string)
    (** [fse.readJSON] on a path that does not exist *)
| JSONSyntaxError (path : string)
    (** [fse.readJSON] on a file that is not JSON *)
| EISDIR (path : string)
    (** reading or writing a path that is a directory *)
| ENOTDIR (path : string)
    (** writing a path whose directory is a plain file *)
| EACCES (path : string)
    (** writing a file that is read-only *)
| JsError (message : string).
    (** [new Error(message)] *)

Inductive result (A : Type) : Type :=
| Ok (a : A)
| Err (e : error).
Arguments Ok {A} a.
Arguments Err {A} e.

Definition is_ok {A} (r : result A) : bool :=
  match r with Ok _ => true | Err _ => false end.

(** ** The monad of an [async] function

    [W] is the state of the world.  A computation that throws still returns
    the world it left behind. *)
Definition M (W A : Type) : Type := W -> result A * W.

Definition ret {W A} (a : A) : M W A := fun w => (Ok a, w).

Definition throw {W A} (e : error) : M W A := fun w => (Err e, w).

Definition bind {W A B} (m : M W A) (k : A -> M W B) : M W B :=
  fun w =>
    match m w with
    | (Ok a, w') => k a w'
    | (Err e, w') => (Err e, w')
    end.

(** [try { m } catch (error) { h error }] *)
Definition try_catch {W A} (m : M W A) (h : error -> M W A) : M W A :=
  fun w =>
    match m w with
    | (Ok a, w') => (Ok a, w')
    | (Err e, w') => h e w'
    end.

(** A synchronous call, or an awaited promise, that has no effect of its own. *)
Definition lift {W A} (r : result A) : M W A := fun w => (r, w).

Declare Scope async_scope.
Delimit Scope async_scope with async.
Notation "'let*' x := m 'in' k" := (bind m (fun x => k))
  (at level 10, x name, m at level 100, k at level 200) : async_scope.
Notation "'do' m 'in' k" := (bind m (fun _ => k))
  (at level 10, m at level 100, k at level 200) : async_scope.
Local Open Scope async_scope.

(** ** [String.prototype.split] with a one-character separator

    ["a  b".split(' ')] is [["a"; ""; "b"]]: every occurrence of the
    separator ends a piece, and the result is never empty. *)
Fixpoint js_split (sep : ascii) (s : string) : list string :=
  match s with
  | EmptyString => [EmptyString]
  | String c s' =>
      if Ascii.eqb c sep then EmptyString :: js_split sep s'
      else match js_split sep s' with
           | [] => [String c EmptyString]
           | piece :: pieces => String c piece :: pieces
           end
  end.

(** Splitting on whitespace, as the specification words the command
    protocol: the pieces are the maximal runs of characters that are not
    whitespace (tab, line feed, vertical tab, form feed, carriage return,
    space). *)
Definition is_whitespace (c : ascii) : bool :=
  let n := nat_of_ascii c in
  (Nat.leb 9 n && Nat.leb n 13) || Nat.eqb n 32.

Fixpoint whitespace_pieces (s : string) : list string :=
  match s with
  | EmptyString => [EmptyString]
  | String c s' =>
      if is_whitespace c then EmptyString :: whitespace_pieces s'
      else match whitespace_pieces s' with
           | [] => [String c EmptyString]
           | piece :: pieces => String c piece :: pieces
           end
  end.

Definition spec_split_on_whitespace (s : string) : list string :=
  List.filter (fun piece => negb (String.eqb piece "")) (whitespace_pieces s).

(** The directory a path lies in: the path up to its last slash. *)
Definition parent_directory (path : string) : string :=
  String.concat "/" (removelast (js_split "/" path)).

(** [s.replace(pattern, '')] with a string pattern: the first occurrence of
    [pattern] in [s] is removed, and [s] is unchanged when there is none. *)
Fixpoint js_remove_first (pattern s : string) : string :=
  if String.prefix pattern s
  then String.substring (String.length pattern)
         (String.length s - String.length pattern) s
  else match s with
       | EmptyString => EmptyString
       | String c s' => String c (js_remove_first pattern s')
       end.

(** * The [fetch] plugin *)

Module Fetch.

(** [ContractConfig['address']]: one address, one address per chain, or none. *)
Inductive Address : Type :=
| AddressUndefined
| AddressString (a : string)
| AddressRecord (byChain : list (Z * string)).

(** [Omit<ContractConfig, 'abi'>] *)
Record Contract : Type := { address : Address; name : string }.

(** The records [contracts()] returns.  [abi] holds whatever [parse] or the
    cache file gave, an array when it is an ABI. *)
Record ContractConfig : Type :=
  { abi : json; contract_address : Address; contract_name : string }.

(** What is at a path: a file that holds JSON, a file that does not, a
    JSON file that may be read but not written, or a directory. *)
Inductive file : Type :=
| FileJSON (v : json)
| FileNotJSON
| FileReadOnly (v : json)
| Directory.

Section Plugin.

(** [RequestInit] and [Response] of [node-fetch] are passed on, never
    inspected. *)
Context {RequestInit Response : Type}.

(** [type Request = { url: RequestInfo; init?: RequestInit }] *)
Record Request : Type := { url : string; init : option RequestInit }.

(** The calls made to the network and to the files, whether they succeed or
    not. *)
Inductive io : Type :=
| NodeFetch (url : string) (init : option RequestInit)
| ReadJSON (path : string)
| WriteJSON (path : string) (v : json).

Record World : Type := { files : gmap string file; log : list io }.

Definition logged (e : io) (w : World) : World :=
  {| files := files w; log := (log w ++ [e])%list |}.

(** The environment of the plugin.  [homedir] is the text that
    [`${homedir}`] evaluates to in the definition of [cacheDir];
    [nodeFetch url init w] is the outcome of that request in the world [w]. *)
Record Env : Type :=
  { homedir : string;
    nodeFetch : string -> option RequestInit -> World -> result Response }.

(** [FetchConfig], after the defaults of [getCacheKey], [name] and [parse]
    have been filled in.  [request] and [parse] may throw. *)
Record FetchConfig : Type :=
  { contractConfigs : list Contract;
    getCacheKey : Contract -> string;
    plugin_name : string;
    parse : Response -> result json;
    request : Contract -> result Request }.

Context (E : Env) (cfg : FetchConfig).

Definition cacheDir : string := homedir E +:+ "/.wagmi-cli/plugins/fetch/cache".

(** [`${cacheDir}/${cacheKey}.json`] *)
Definition cacheFile (cacheKey : string) : string :=
  cacheDir +:+ "/" +:+ cacheKey +:+ ".json".

(** [await nodeFetch(url, init)] *)
Definition await_nodeFetch (url : string) (init : option RequestInit)
  : M World Response :=
  fun w => (nodeFetch E url init w, logged (NodeFetch url init) w).

(** [await fse.readJSON(path)]: rejects when the file is missing, is a
    directory or is not JSON, and resolves to the parsed value otherwise. *)
Definition readJSON (path : string) : M World json :=
  fun w =>
    (match files w !! path with
     | None => Err (ENOENT path)
     | Some FileNotJSON => Err (JSONSyntaxError path)
     | Some (FileJSON v) => Ok v
     | Some (FileReadOnly v) => Ok v
     | Some Directory => Err (EISDIR path)
     end, logged (ReadJSON path) w).

(** Why the files [m] refuse a write to [path], if they do.  A file that is
    there is overwritten unless it is read-only; a file that is not there is
    created when its directory is ([fse.writeJSON] creates no directory). *)
Definition write_error (m : gmap string file) (path : string) : option error :=
  match m !! path with
  | Some (FileJSON _) => None
  | Some FileNotJSON => None
  | Some (FileReadOnly _) => Some (EACCES path)
  | Some Directory => Some (EISDIR path)
  | None =>
      match m !! parent_directory path with
      | Some Directory => None
      | Some _ => Some (ENOTDIR path)
      | None => Some (ENOENT path)
      end
  end.

(** [await fse.writeJSON(path, v)] *)
Definition writeJSON (path : string) (v : json) : M World unit :=
  fun w =>
    match write_error (files w) path with
    | None =>
        (Ok tt,
         {| files := <[path := FileJSON v]> (files w);
            log := (log w ++ [WriteJSON path v])%list |})
    | Some e => (Err e, logged (WriteJSON path v) w)
    end.

(** The body of [for (const contract of contractConfigs)]; [contracts] is the
    array built so far. *)
Definition contracts_body (contract : Contract) (contracts : list ContractConfig)
  : M World (list ContractConfig) :=
  let* r := lift (request cfg contract) in
  let cacheKey := getCacheKey cfg contract in
  let* abi :=
    try_catch
      (let* response := await_nodeFetch (url r) (init r) in
       lift (parse cfg response))
      (fun error =>
         let* abi := readJSON (cacheFile cacheKey) in
         if negb (truthy abi) then throw error else ret abi) in
  let contracts :=
    (contracts ++ [{| abi := abi;
                      contract_address := address contract;
                      contract_name := name contract |}])%list in
  do writeJSON (cacheFile cacheKey) abi in
  ret contracts.

Fixpoint contracts_loop (todo : list Contract) (contracts : list ContractConfig)
  : M World (list ContractConfig) :=
  match todo with
  | [] => ret contracts
  | contract :: todo' =>
      let* contracts' := contracts_body contract contracts in
      contracts_loop todo' contracts'
  end.

(** [async contracts()] *)
Definition contracts : M World (list ContractConfig) :=
  contracts_loop (contractConfigs cfg) [].

(** The outcome of the [try] block for the request [r] in the world [w]: the
    parsed ABI, or the error of [nodeFetch] or of [parse]. *)
Definition live_fetch (r : Request) (w : World) : result json :=
  match nodeFetch E (url r) (init r) w with
  | Ok response => parse cfg response
  | Err e => Err e
  end.

(** The record pushed for [contract] once its ABI is known. *)
Definition resolved (contract : Contract) (abi : json) : ContractConfig :=
  {| abi := abi;
     contract_address := address contract;
     contract_name := name contract |}.

End Plugin.

Arguments Request : clear implicits.
Arguments io : clear implicits.
Arguments World : clear implicits.
Arguments Env : clear implicits.
Arguments FetchConfig : clear implicits.

End Fetch.

(** * The [hardhat] plugin *)

Module Hardhat.

Definition defaultExcludes : list string := ["build-info/**"; "*.dbg.json"].

(** A command of [HardhatConfig['commands']]: [string | false]. *)
Inductive Command : Type :=
| CommandFalse
| CommandString (s : string).

(** [commands]; [None] is a command that was not supplied ([undefined]). *)
Record Commands : Type :=
  { clean : option Command; build : option Command; rebuild : option Command }.

(** [HardhatConfig], after the defaults of the destructuring have been filled
    in (see [config_of_project]). *)
Record HardhatConfig : Type :=
  { artifacts : string;
    exclude : list string;
    commands : Commands;
    include : list string;
    namePrefix : string;
    project : string;
    sources : string }.

Definition config_of_project (project : string) : HardhatConfig :=
  {| artifacts := "artifacts";
     exclude := defaultExcludes;
     commands := {| clean := None; build := None; rebuild := None |};
     include := ["*.json"];
     namePrefix := "";
     project := project;
     sources := "contracts" |}.

(** An artifact file as the plugin reads it: [contractName] is a string (the
    parameter type of [getContractName]), [abi] is whatever the file has there,
    [None] when it has no such property; other properties are not read. *)
Record Artifact : Type := { contractName : string; artifact_abi : option json }.

(** What [getContract] returns. *)
Record Contract : Type := { abi : option json; name : string }.

Inductive file : Type :=
| FileArtifact (a : Artifact)
| FileNotJSON.

Record FileSystem : Type :=
  { files : gmap string file; directories : gset string }.

Inductive io : Type :=
| Execa (command : string) (options : list string) (cwd : string)
| PathExistsSync (path : string)
| Globby (patterns : list string)
| ReadJSON (path : string)
| LoggerLog (message : string)
| ConsoleLog (arguments : list string)
| ChokidarWatch (path : string)
| ProcessOnce (signal : string).

Record World : Type := { fs : FileSystem; log : list io }.

Definition logged (e : io) (w : World) : World :=
  {| fs := fs w; log := (log w ++ [e])%list |}.

(** The environment of the plugin: what [getPackageManager()] resolves to,
    [resolve], [basename] and [extname] of [pathe], and the outcome of a
    process or of a glob search in a given world (a process leaves a new file
    system behind, or fails). *)
Record Env : Type :=
  { packageManager : string;
    resolve : string -> string;
    basename : string -> string;
    extname : string -> string;
    run_process : string -> list string -> string -> World -> result FileSystem;
    glob : list string -> World -> result (list string) }.

Section Plugin.

Context (E : Env) (cfg : HardhatConfig).

(** [await getPackageManager()] *)
Definition getPackageManager : M World string := ret (packageManager E).

(** [await execa(command, options, { cwd })] *)
Definition execa (command : string) (options : list string) (cwd : string)
  : M World unit :=
  fun w =>
    match run_process E command options cwd w with
    | Ok fs' => (Ok tt, {| fs := fs'; log := (log w ++ [Execa command options cwd])%list |})
    | Err e => (Err e, logged (Execa command options cwd) w)
    end.

(** [await execa(command, options, { cwd }).stdout?.pipe(process.stdout)]:
    the process is started and its output forwarded; what is awaited is the
    value of [pipe], not the end of the process. *)
Definition execa_piped (command : string) (options : list string) (cwd : string)
  : M World unit :=
  fun w => (Ok tt, logged (Execa command options cwd) w).

Definition pathExistsSync (path : string) : M World bool :=
  fun w =>
    (Ok (bool_decide (path ∈ directories (fs w))
         || bool_decide (is_Some (files (fs w) !! path))),
     logged (PathExistsSync path) w).

Definition globby (patterns : list string) : M World (list string) :=
  fun w => (glob E patterns w, logged (Globby patterns) w).

(** [await fse.readJSON(path)] *)
Definition readJSON (path : string) : M World Artifact :=
  fun w =>
    (match files (fs w) !! path with
     | None => Err (ENOENT path)
     | Some FileNotJSON => Err (JSONSyntaxError path)
     | Some (FileArtifact a) => Ok a
     end, logged (ReadJSON path) w).

Definition console_log (arguments : list string) : M World unit :=
  fun w => (Ok tt, logged (ConsoleLog arguments) w).

Definition logger_log (message : string) : M World unit :=
  fun w => (Ok tt, logged (LoggerLog message) w).

Definition getContractName (artifact : Artifact) : string :=
  namePrefix cfg +:+ contractName artifact.

Definition getContract (artifactPath : string) : M World Contract :=
  let* artifact := readJSON artifactPath in
  ret {| abi := artifact_abi artifact; name := getContractName artifact |}.

Definition getArtifactPaths (artifactsDirectory : string) : M World (list string) :=
  globby (map (fun x => artifactsDirectory +:+ "/**/" +:+ x) (include cfg)
          ++ map (fun x => "!" +:+ artifactsDirectory +:+ "/**/" +:+ x) (exclude cfg))%list.

Definition artifactsDirectory : string := project cfg +:+ "/" +:+ artifacts cfg.
Definition sourcesDirectory : string := project cfg +:+ "/" +:+ sources cfg.

(** [`${packageManager}`] when [packageManager] may be [undefined] *)
Definition template_of (packageManager : option string) : string :=
  match packageManager with Some s => s | None => "undefined" end.

(** [command ?? fallback] *)
Definition nullish_or (command : option Command) (fallback : string) : Command :=
  match command with Some c => c | None => CommandString fallback end.

(** [if (command)]: the string to run when the condition holds. *)
Definition if_truthy (command : Command) : option string :=
  match command with
  | CommandFalse => None
  | CommandString s => if String.eqb s "" then None else Some s
  end.

(** [!contract.abi?.length]: no [abi], or one whose [length] is missing, zero
    or otherwise false. *)
Definition no_length (abi : option json) : bool :=
  match abi with
  | None => true
  | Some JNull => true
  | Some (JBool _) => true
  | Some (JNumber _) => true
  | Some (JString s) => String.eqb s ""
  | Some (JArray items) => Nat.eqb (List.length items) 0
  | Some (JObject members) =>
      match List.find (fun m => String.eqb (fst m) "length") members with
      | Some m => negb (truthy (snd m))
      | None => true
      end
  end.

Fixpoint contracts_loop (artifactPaths : list string) (contracts : list Contract)
  : M World (list Contract) :=
  match artifactPaths with
  | [] => ret contracts
  | artifactPath :: artifactPaths' =>
      let* contract := getContract artifactPath in
      if no_length (abi contract) then contracts_loop artifactPaths' contracts
      else contracts_loop artifactPaths' (contracts ++ [contract])%list
  end.

(** [const [command, ...options] = s.split(' ')] followed by
    [await execa(command!, options, { cwd: resolve(project) })] *)
Definition execa_split (s : string) : M World unit :=
  let parts := js_split " " s in
  execa (hd "" parts) (tl parts) (resolve E (project cfg)).

(** [async contracts()] *)
Definition contracts : M World (list Contract) :=
  let* packageManager :=
    match clean (commands cfg), build (commands cfg) with
    | Some _, Some _ => ret None
    | _, _ => let* pm := getPackageManager in ret (Some pm)
    end in
  let clean :=
    nullish_or (clean (commands cfg)) (template_of packageManager +:+ " hardhat clean") in
  do match if_truthy clean with
     | Some clean => execa_split clean
     | None => ret tt
     end in
  let build :=
    nullish_or (build (commands cfg)) (template_of packageManager +:+ " hardhat compile") in
  do match if_truthy build with
     | Some build => execa_split build
     | None => ret tt
     end in
  let* found := pathExistsSync artifactsDirectory in
  if negb found then throw (JsError "Artifacts not found.")
  else
    let* artifactPaths := getArtifactPaths artifactsDirectory in
    contracts_loop artifactPaths [].

(** The strings [contracts()] runs as [clean] and as [build], when the
    conditions [if (clean)] and [if (build)] hold. *)
Definition clean_command : option string :=
  if_truthy (nullish_or (clean (commands cfg)) (packageManager E +:+ " hardhat clean")).

Definition build_command : option string :=
  if_truthy (nullish_or (build (commands cfg)) (packageManager E +:+ " hardhat compile")).

(** The process a command string is run as. *)
Definition process_of (s : string) : io :=
  Execa (hd "" (js_split " " s)) (tl (js_split " " s)) (resolve E (project cfg)).

Definition run_if_any (command : option string) : M World unit :=
  match command with
  | Some s => execa_split s
  | None => ret tt
  end.

(** The artifact scan: what [contracts()] does after the build. *)
Definition artifact_scan : M World (list Contract) :=
  let* found := pathExistsSync artifactsDirectory in
  if negb found then throw (JsError "Artifacts not found.")
  else
    let* artifactPaths := getArtifactPaths artifactsDirectory in
    contracts_loop artifactPaths [].

Definition is_scan_event (e : io) : bool :=
  match e with
  | PathExistsSync _ | Globby _ | ReadJSON _ => true
  | _ => false
  end.

Definition newline : string := String (ascii_of_nat 10) EmptyString.
Definition quote : string := String (ascii_of_nat 34) EmptyString.

(** [async validate()] *)
Definition validate : M World unit :=
  match clean (commands cfg), build (commands cfg), rebuild (commands cfg) with
  | Some _, Some _, Some _ => ret tt
  | _, _, _ =>
      let* packageManager := getPackageManager in
      try_catch
        (execa packageManager ["hardhat"; "--version"] (resolve E (project cfg)))
        (fun error =>
           let install :=
             if String.eqb packageManager "npm" then "install --save" else "add" in
           throw (JsError
                    ("hardhat must be installed to use Hardhat plugin." +:+ newline
                     +:+ "To install, run: " +:+ packageManager +:+ " " +:+ install
                     +:+ " hardhat.")))
  end.

(** The listener of [watcher.on('all', ...)], for the [command] and [options]
    the rebuild command was split into. *)
Definition on_all (command : string) (options : list string) (event : string)
  : M World unit :=
  if negb (String.eqb event "change") && negb (String.eqb event "add")
     && negb (String.eqb event "unlink")
  then ret tt
  else
    do console_log ["Rebuilding Hardhat project…"] in
    execa_piped command options (resolve E (project cfg)).

(** [commands.rebuild ?? true]: whether [watch.command] is defined. *)
Definition rebuild_wanted : bool :=
  match rebuild (commands cfg) with
  | None => true
  | Some CommandFalse => false
  | Some (CommandString s) => negb (String.eqb s "")
  end.

(** [commands.rebuild || `${await getPackageManager()} hardhat compile`] *)
Definition rebuild_command : string :=
  match rebuild (commands cfg) with
  | Some (CommandString s) =>
      if String.eqb s "" then packageManager E +:+ " hardhat compile" else s
  | _ => packageManager E +:+ " hardhat compile"
  end.

(** [watch.command]: [None] when it is [undefined]; otherwise the function,
    which resolves to the listener it has registered with the watcher. *)
Definition watch_command : option (M World (string -> M World unit)) :=
  if rebuild_wanted then
    Some
      (do logger_log ("Watching Hardhat project for changes at " +:+ quote
                      +:+ project cfg +:+ quote +:+ ".") in
       do (fun w => (Ok tt, logged (ChokidarWatch sourcesDirectory) w)) in
       let* rebuild :=
         match rebuild (commands cfg) with
         | Some (CommandString s) =>
             if String.eqb s ""
             then let* pm := getPackageManager in ret (pm +:+ " hardhat compile")
             else ret s
         | _ => let* pm := getPackageManager in ret (pm +:+ " hardhat compile")
         end in
       let parts := js_split " " rebuild in
       let listener := on_all (hd "" parts) (tl parts) in
       do (fun w => (Ok tt, logged (ProcessOnce "SIGINT") w)) in
       do (fun w => (Ok tt, logged (ProcessOnce "SIGTERM") w)) in
       ret listener)
  else None.

(** [watch.paths] *)
Definition watch_paths : list string :=
  (artifactsDirectory
   :: map (fun x => artifactsDirectory +:+ "/**/" +:+ x) (include cfg)
   ++ map (fun x => "!" +:+ artifactsDirectory +:+ "/**/" +:+ x) (exclude cfg))%list.

Definition onAdd (path : string) : M World Contract :=
  do console_log ["onAdd"; path] in
  getContract path.

Definition onChange (path : string) : M World Contract :=
  do console_log ["onChange"; path] in
  getContract path.

(** [`${namePrefix}${filename.replace(extension, '')}`] *)
Definition removedContractName (path : string) : string :=
  let filename := basename E path in
  let extension := extname E path in
  namePrefix cfg +:+ js_remove_first extension filename.

(** The loop of [onRemove]: [None] is the bare [return] (undefined). *)
Fixpoint onRemove_loop (artifactPaths : list string) (removed : string)
  : M World (option string) :=
  match artifactPaths with
  | [] => ret (Some removed)
  | artifactPath :: artifactPaths' =>
      let* contract := getContract artifactPath in
      if String.eqb (name contract) removed then ret None
      else onRemove_loop artifactPaths' removed
  end.

Definition onRemove (path : string) : M World (option string) :=
  do console_log ["onRemove"; path] in
  let removed := removedContractName path in
  let* artifactPaths := getArtifactPaths artifactsDirectory in
  onRemove_loop artifactPaths removed.

End Plugin.

End Hardhat.

(** * Concrete configurations and worlds *)

Module FetchExample.
Import Fetch.

(** One contract; the response is the JSON body itself and [parse] returns
    it; the cache key of a contract with one address is that address. *)
Definition wagmiMint : Contract :=
  {| address := AddressString "0xaf0326d92b97df1221759476b072abfd8084f9be";
     name := "WagmiMint" |}.

Definition abiRequest : Request unit :=
  {| url := "https://example.org/abi/wagmi-mint.json"; init := None |}.

Definition config : FetchConfig unit json :=
  {| contractConfigs := [wagmiMint];
     getCacheKey :=
       fun contract =>
         match address contract with
         | AddressString a => a
         | _ => "undefined"
         end;
     plugin_name := "Fetch";
     parse := fun response => Ok response;
     request := fun _ => Ok abiRequest |}.

(** The network is down. *)
Definition offline : Env unit json :=
  {| homedir := "~"; nodeFetch := fun _ _ _ => Err (Thrown "request failed") |}.

(** The server answers [body]. *)
Definition online (body : json) : Env unit json :=
  {| homedir := "~"; nodeFetch := fun _ _ _ => Ok body |}.

Definition cachePath : string :=
  "~/.wagmi-cli/plugins/fetch/cache/0xaf0326d92b97df1221759476b072abfd8084f9be.json".

Definition cacheDirectory : string := "~/.wagmi-cli/plugins/fetch/cache".

(** The cache directory is there and empty. *)
Definition no_cache : World unit :=
  {| files := {[ cacheDirectory := Directory ]}; log := [] |}.

(** The cache file of [wagmiMint] holds [v]. *)
Definition cached (v : json) : World unit :=
  {| files := {[ cacheDirectory := Directory; cachePath := FileJSON v ]}; log := [] |}.

(** The same, in a file that may not be written. *)
Definition cached_read_only (v : json) : World unit :=
  {| files := {[ cacheDirectory := Directory; cachePath := FileReadOnly v ]};
     log := [] |}.

(** There is no cache directory. *)
Definition no_cache_directory : World unit := {| files := ∅; log := [] |}.

Definition mintAbi : list json :=
  [JObject [("type", JString "function"); ("name", JString "mint");
            ("inputs", JArray []); ("outputs", JArray [])]].

End FetchExample.

Module HardhatExample.
Import Hardhat.

(** Stand-ins for [basename] and [extname] of [pathe] on plain paths: the
    text after the last slash, and from its last dot on. *)
Definition basename_of (path : string) : string := List.last (js_split "/" path) "".

Definition extname_of (path : string) : string :=
  match js_split "." (basename_of path) with
  | [] | [_] => ""
  | pieces => "." +:+ List.last pieces ""
  end.

Definition tokenPath : string := "proj/artifacts/contracts/Token.sol/Token.json".
Definition interfacePath : string := "proj/artifacts/contracts/IToken.sol/IToken.json".
Definition movedPath : string := "proj/artifacts/contracts/old/Token.sol/Token.json".
Definition gonePath : string := "proj/artifacts/contracts/Gone.sol/Gone.json".

Definition transferAbi : list json :=
  [JObject [("type", JString "function"); ("name", JString "transfer")]].

Definition token : Artifact :=
  {| contractName := "Token"; artifact_abi := Some (JArray transferAbi) |}.

(** An interface compiles to an artifact with an empty ABI. *)
Definition interface : Artifact :=
  {| contractName := "IToken"; artifact_abi := Some (JArray []) |}.

Definition built : World :=
  {| fs := {| files := {[ tokenPath := FileArtifact token;
                          interfacePath := FileArtifact interface ]};
              directories := {[ "proj/artifacts" ]} |};
     log := [] |}.

(** Every process succeeds and leaves the files as they are, except a
    process whose executable is [failing]; the scan finds [found]. *)
Definition env (failing : string) (found : list string) : Env :=
  {| packageManager := "pnpm";
     resolve := fun path => "/work/" +:+ path;
     basename := basename_of;
     extname := extname_of;
     run_process :=
       fun command _ _ w =>
         if String.eqb command failing then Err (Thrown "exit code 1") else Ok (fs w);
     glob := fun _ _ => Ok found |}.

Definition with_commands (commands : Commands) : HardhatConfig :=
  {| artifacts := "artifacts";
     exclude := defaultExcludes;
     commands := commands;
     include := ["*.json"];
     namePrefix := "";
     project := "proj";
     sources := "contracts" |}.

Definition all_off : Commands :=
  {| clean := Some CommandFalse;
     build := Some CommandFalse;
     rebuild := Some CommandFalse |}.

Definition tab : string := String (ascii_of_nat 9) EmptyString.

(** A clean command with two spaces in a row, a build command with a tab. *)
Definition loosely_spaced : Commands :=
  {| clean := Some (CommandString "npx  hardhat clean");
     build := Some (CommandString ("npx" +:+ tab +:+ "hardhat compile"));
     rebuild := Some CommandFalse |}.

(** Commands with different executables, so that one of them can fail. *)
Definition make_commands : Commands :=
  {| clean := Some (CommandString "rm -rf cache");
     build := Some (CommandString "make contracts");
     rebuild := None |}.

(** What [watch.command] of the default configuration gives. *)
Definition default_run : M World (string -> M World unit) :=
  match watch_command (env "" []) (config_of_project "proj") with
  | Some run => run
  | None => ret (fun _ => ret tt)
  end.

Definition default_listener : string -> M World unit :=
  match fst (default_run built) with
  | Ok listener => listener
  | Err _ => fun _ => ret tt
  end.

End HardhatExample.

Module FetchCacheExample.
Import Fetch FetchExample.

Definition ensRegistry : Contract :=
  {| address := AddressString "0x00000000000C2E074eC69A0dFb2997BA6C7d2e1e";
     name := "EnsRegistry" |}.

Definition anonymous : Contract := {| address := AddressUndefined; name := "Anonymous" |}.

Definition registryAbi : list json :=
  [JObject [("type", JString "function"); ("name", JString "owner")]].

Definition mintUrl : string := "https://example.org/abi/WagmiMint".
Definition registryUrl : string := "https://example.org/abi/EnsRegistry".

(** Two contracts, each requested at a URL of its own. *)
Definition two : FetchConfig unit json :=
  {| contractConfigs := [wagmiMint; ensRegistry];
     getCacheKey := getCacheKey config;
     plugin_name := "Fetch";
     parse := fun response => Ok response;
     request :=
       fun contract =>
         Ok {| url := "https://example.org/abi/" +:+ name contract; init := None |} |}.

(** A configuration whose [request] throws for a contract with no address. *)
Definition strict : FetchConfig unit json :=
  {| contractConfigs := [anonymous; wagmiMint];
     getCacheKey := getCacheKey config;
     plugin_name := "Fetch";
     parse := fun response => Ok response;
     request :=
       fun contract =>
         match address contract with
         | AddressUndefined => Err (Thrown "no address")
         | _ => Ok abiRequest
         end |}.

(** The server answers the URLs of [known] and no other. *)
Definition serving (known : list (string * json)) : Env unit json :=
  {| homedir := "~";
     nodeFetch :=
       fun url _ _ =>
         match List.find (fun entry => String.eqb (fst entry) url) known with
         | Some entry => Ok (snd entry)
         | None => Err (Thrown "404")
         end |}.

Definition registryPath : string :=
  "~/.wagmi-cli/plugins/fetch/cache/0x00000000000C2E074eC69A0dFb2997BA6C7d2e1e.json".

End FetchCacheExample.

Module HardhatScanExample.
Import Hardhat HardhatExample.

(** A project that was never built. *)
Definition unbuilt : World :=
  {| fs := {| files := ∅; directories := ∅ |}; log := [] |}.

End HardhatScanExample.

(** * The JavaScript string functions on examples *)

Example js_split_single_spaces :
  js_split " " "npx hardhat clean" = ["npx"; "hardhat"; "clean"].
Proof. reflexivity. Qed.

Example js_split_double_space : js_split " " "a  b" = ["a"; ""; "b"].
Proof. reflexivity. Qed.

Example js_split_empty : js_split " " "" = [""].
Proof. reflexivity. Qed.

Example js_remove_first_extension : js_remove_first ".json" "A.json" = "A".
Proof. reflexivity. Qed.

Example js_remove_first_only_first :
  js_remove_first ".json" "A.json.json" = "A.json".
Proof. reflexivity. Qed.

Example js_remove_first_empty_pattern : js_remove_first "" "A" = "A".
Proof. reflexivity. Qed.

Example js_remove_first_absent : js_remove_first ".sol" "A" = "A".
Proof. reflexivity. Qed.

(** * Properties of the [fetch] plugin *)

Section FetchFacts.

Import Fetch.

Context {RequestInit Response : Type}.
Context (E : Env RequestInit Response) (cfg : FetchConfig RequestInit Response).

Implicit Types (contract : Contract) (acc : list ContractConfig).
Implicit Types (w : World RequestInit) (r : Request RequestInit).

Ltac run_async :=
  unfold contracts_body, await_nodeFetch, readJSON, writeJSON,
    bind, try_catch, lift, ret, throw, logged; simpl.

(** A live fetch that succeeds: the record is pushed and the ABI is written,
    unless the files refuse the write. *)
Lemma contracts_body_live contract acc w r abi :
  request cfg contract = Ok r ->
  live_fetch E cfg r w = Ok abi ->
  let path := cacheFile E (getCacheKey cfg contract) in
  let events := ([NodeFetch (url r) (init r)] ++ [WriteJSON path abi])%list in
  contracts_body E cfg contract acc w =
    match write_error (files w) path with
    | None =>
        (Ok (acc ++ [resolved contract abi])%list,
         {| files := <[path := FileJSON abi]> (files w);
            log := (log w ++ events)%list |})
    | Some e => (Err e, {| files := files w; log := (log w ++ events)%list |})
    end.
Proof.
  intros Hr Hlive path events. unfold live_fetch in Hlive. run_async. rewrite Hr. simpl.
  destruct (nodeFetch E (url r) (init r) w) as [response|e]; [|discriminate].
  rewrite Hlive. simpl. fold path.
  destruct (write_error (files w) path); simpl; unfold events; by rewrite <- app_assoc.
Qed.

(** A live fetch that fails goes to the cache file; this is what the [catch]
    block and the write after it make of each state of that file. *)
Lemma contracts_body_fallback contract acc w r e :
  request cfg contract = Ok r ->
  live_fetch E cfg r w = Err e ->
  let path := cacheFile E (getCacheKey cfg contract) in
  let w1 := {| files := files w;
               log := (log w ++ [NodeFetch (url r) (init r)] ++ [ReadJSON path])%list |} in
  contracts_body E cfg contract acc w =
    match files w !! path with
    | None => (Err (ENOENT path), w1)
    | Some FileNotJSON => (Err (JSONSyntaxError path), w1)
    | Some Directory => (Err (EISDIR path), w1)
    | Some (FileJSON v) =>
        if truthy v
        then (Ok (acc ++ [resolved contract v])%list,
              {| files := <[path := FileJSON v]> (files w);
                 log := (log w1 ++ [WriteJSON path v])%list |})
        else (Err e, w1)
    | Some (FileReadOnly v) =>
        if truthy v
        then (Err (EACCES path),
              {| files := files w; log := (log w1 ++ [WriteJSON path v])%list |})
        else (Err e, w1)
    end.
Proof.
  intros Hr Hlive path w1. unfold live_fetch in Hlive. run_async. rewrite Hr. simpl.
  destruct (nodeFetch E (url r) (init r) w) as [response|e']; simpl;
    [rewrite Hlive; simpl | injection Hlive as ->]; fold path;
    (destruct (files w !! path) as [[v| |v|]|] eqn:Hfile; simpl;
     try destruct (truthy v); simpl; unfold write_error, w1; rewrite ?Hfile; simpl;
     by rewrite <- ?app_assoc).
Qed.

(** With no cache file, a failed fetch ends in the error of the file read. *)
Lemma contracts_body_cache_miss contract acc w r e :
  request cfg contract = Ok r ->
  live_fetch E cfg r w = Err e ->
  files w !! cacheFile E (getCacheKey cfg contract) = None ->
  fst (contracts_body E cfg contract acc w)
  = Err (ENOENT (cacheFile E (getCacheKey cfg contract))).
Proof.
  intros Hr Hlive Hnone.
  rewrite (contracts_body_fallback _ _ _ _ _ Hr Hlive). simpl.
  by rewrite Hnone.
Qed.

(** A cache file that holds a false value ([null], [false], [0], the empty
    string) counts as no entry: the error of the fetch is thrown again. *)
Lemma contracts_body_cache_falsy contract acc w r e v :
  request cfg contract = Ok r ->
  live_fetch E cfg r w = Err e ->
  files w !! cacheFile E (getCacheKey cfg contract) = Some (FileJSON v) ->
  truthy v = false ->
  fst (contracts_body E cfg contract acc w) = Err e.
Proof.
  intros Hr Hlive Hfile Hv.
  rewrite (contracts_body_fallback _ _ _ _ _ Hr Hlive). simpl.
  by rewrite Hfile, Hv.
Qed.

(** Whatever the ABI, a body that succeeds has pushed exactly one record, for
    this contract, and has written its ABI. *)
Lemma contracts_body_pushes contract acc w out w' :
  contracts_body E cfg contract acc w = (Ok out, w') ->
  exists abi,
    out = (acc ++ [resolved contract abi])%list
    /\ files w' = <[cacheFile E (getCacheKey cfg contract) := FileJSON abi]> (files w).
Proof.
  destruct (request cfg contract) as [r|e] eqn:Hr.
  - destruct (live_fetch E cfg r w) as [abi|e] eqn:Hlive.
    + rewrite (contracts_body_live _ _ _ _ _ Hr Hlive). simpl.
      destruct (write_error _ _); [discriminate|]. intros [= <- <-]. by exists abi.
    + rewrite (contracts_body_fallback _ _ _ _ _ Hr Hlive). simpl.
      destruct (files w !! _) as [[v| |v|]|]; try discriminate;
        (destruct (truthy v); [|discriminate]); [|discriminate].
      intros [= <- <-]. by exists v.
  - run_async. rewrite Hr. discriminate.
Qed.

(** [contracts()] never leaves a configured contract out. *)
Lemma contracts_loop_keeps_all todo acc w out w' :
  contracts_loop E cfg todo acc w = (Ok out, w') ->
  map (fun c => (contract_address c, contract_name c)) out
  = (map (fun c => (contract_address c, contract_name c)) acc
     ++ map (fun c => (address c, name c)) todo)%list.
Proof.
  revert acc w. induction todo as [|contract todo IH]; intros acc w; simpl.
  - unfold ret. intros [= <- <-]. by rewrite app_nil_r.
  - unfold bind at 1.
    destruct (contracts_body E cfg contract acc w) as [[acc'|e] w1] eqn:Hbody;
      [|discriminate].
    intros Hloop. apply contracts_body_pushes in Hbody as (abi & -> & _).
    rewrite (IH _ _ Hloop), map_app. simpl. by rewrite <- app_assoc.
Qed.

Lemma contracts_loop_app todo1 todo2 acc w :
  contracts_loop E cfg (todo1 ++ todo2) acc w
  = bind (contracts_loop E cfg todo1 acc) (contracts_loop E cfg todo2) w.
Proof.
  revert acc w. induction todo1 as [|contract todo1 IH]; intros acc w; simpl; [done|].
  unfold bind.
  destruct (contracts_body E cfg contract acc w) as [[acc'|e] w1]; [|done].
  by rewrite IH.
Qed.

Lemma contracts_loop_extends todo acc w out w' :
  contracts_loop E cfg todo acc w = (Ok out, w') ->
  exists news, out = (acc ++ news)%list /\ List.length news = List.length todo.
Proof.
  revert acc w. induction todo as [|contract todo IH]; intros acc w; simpl.
  - unfold ret. intros [= <- <-]. exists []. by rewrite app_nil_r.
  - unfold bind at 1.
    destruct (contracts_body E cfg contract acc w) as [[acc'|e] w1] eqn:Hbody;
      [|discriminate].
    intros Hloop. apply contracts_body_pushes in Hbody as (abi & -> & _).
    destruct (IH _ _ Hloop) as (news & -> & Hlen).
    exists (resolved contract abi :: news). rewrite <- app_assoc. simpl. auto.
Qed.

(** C3 (as the code has it): the contracts before [contract] have gone
    through; the live fetch or the parse of [contract] fails, and the cache
    file of its cache key holds an ABI (an array) and may be written.  Then
    the loop body does not throw for this contract and pushes a record whose
    ABI is the cached array; [contracts()] goes on with the contracts after
    it, returns this record last when there is none, and whenever it returns
    a list, that list has this record at the place of the contract. *)
Theorem fetch_failure_with_cache_entry_returns_cached_abi
    before contract after w acc1 w1 r e items :
  contractConfigs cfg = (before ++ contract :: after)%list ->
  contracts_loop E cfg before [] w = (Ok acc1, w1) ->
  request cfg contract = Ok r ->
  live_fetch E cfg r w1 = Err e ->
  files w1 !! cacheFile E (getCacheKey cfg contract) = Some (FileJSON (JArray items)) ->
  (exists w2,
      contracts_body E cfg contract acc1 w1
      = (Ok (acc1 ++ [resolved contract (JArray items)])%list, w2)
      /\ contracts E cfg w
         = contracts_loop E cfg after (acc1 ++ [resolved contract (JArray items)])%list w2)
  /\ (after = [] ->
      fst (contracts E cfg w) = Ok (acc1 ++ [resolved contract (JArray items)])%list)
  /\ (forall out w',
        contracts E cfg w = (Ok out, w') ->
        out !! List.length before = Some (resolved contract (JArray items))).
Proof.
  intros Hcfg Hbefore Hr Hlive Hfile.
  pose proof (contracts_body_fallback contract acc1 w1 r e Hr Hlive) as Hbody.
  simpl in Hbody. rewrite Hfile in Hbody. simpl in Hbody.
  assert (Hrun : contracts E cfg w
                 = contracts_loop E cfg after
                     (acc1 ++ [resolved contract (JArray items)])%list
                     (snd (contracts_body E cfg contract acc1 w1))).
  { unfold contracts. rewrite Hcfg, contracts_loop_app. unfold bind at 1.
    rewrite Hbefore. simpl. unfold bind at 1. by rewrite Hbody. }
  split; [|split].
  - eexists. split; [exact Hbody|]. by rewrite Hrun, Hbody.
  - intros ->. by rewrite Hrun.
  - intros out w' Hout. rewrite Hrun in Hout.
    destruct (contracts_loop_extends _ _ _ _ _ Hout) as (news & -> & _).
    destruct (contracts_loop_extends _ _ _ _ _ Hbefore) as (news1 & -> & <-).
    simpl. rewrite <- app_assoc. by apply list_lookup_middle.
Qed.

(** C10 (as the code has it): once the ABI of a contract is resolved, by the
    live fetch or by the cache file after a failed fetch, the loop body goes
    on to write it to the cache file of the contract's cache key, as the
    last thing it does.  When the files take the write, the body succeeds and
    the cache file holds the resolved ABI (after a fallback, the value just
    read is written back).  When they refuse it (no cache directory, a
    read-only file), the body fails with the error of the write and the
    files are as they were. *)
Theorem fetch_resolved_abi_written_to_cache contract acc w r abi :
  request cfg contract = Ok r ->
  let path := cacheFile E (getCacheKey cfg contract) in
  (live_fetch E cfg r w = Ok abi ->
   let events := [NodeFetch (url r) (init r); WriteJSON path abi] in
   (write_error (files w) path = None ->
    exists w',
      contracts_body E cfg contract acc w = (Ok (acc ++ [resolved contract abi])%list, w')
      /\ files w' !! path = Some (FileJSON abi)
      /\ log w' = (log w ++ events)%list)
   /\ (forall e',
         write_error (files w) path = Some e' ->
         contracts_body E cfg contract acc w
         = (Err e', {| files := files w; log := (log w ++ events)%list |})))
  /\ ((exists e, live_fetch E cfg r w = Err e) ->
      truthy abi = true ->
      let events := [NodeFetch (url r) (init r); ReadJSON path; WriteJSON path abi] in
      (files w !! path = Some (FileJSON abi) ->
       exists w',
         contracts_body E cfg contract acc w = (Ok (acc ++ [resolved contract abi])%list, w')
         /\ files w' !! path = Some (FileJSON abi)
         /\ log w' = (log w ++ events)%list)
      /\ (files w !! path = Some (FileReadOnly abi) ->
          contracts_body E cfg contract acc w
          = (Err (EACCES path), {| files := files w; log := (log w ++ events)%list |}))).
Proof.
  intros Hr path. split.
  - intros Hlive events.
    pose proof (contracts_body_live contract acc w r abi Hr Hlive) as Hbody.
    simpl in Hbody. fold path in Hbody. split.
    + intros Hwrite. rewrite Hwrite in Hbody. eexists. split; [exact Hbody|].
      simpl. split; [apply lookup_insert_eq|reflexivity].
    + intros e' Hwrite. by rewrite Hwrite in Hbody.
  - intros [e Hlive] Habi events.
    pose proof (contracts_body_fallback contract acc w r e Hr Hlive) as Hbody.
    simpl in Hbody. fold path in Hbody. split.
    + intros Hfile. rewrite Hfile, Habi in Hbody.
      eexists. split; [exact Hbody|]. simpl.
      split; [apply lookup_insert_eq|by rewrite <- !app_assoc].
    + intros Hfile. rewrite Hfile, Habi in Hbody. rewrite Hbody.
      by rewrite <- !app_assoc.
Qed.

End FetchFacts.

(** * Properties of the [hardhat] plugin *)

Section HardhatFacts.

Import Hardhat.

Context (E : Env) (cfg : HardhatConfig).

Implicit Types (w : World) (acc : list Contract) (paths : list string).

Lemma js_split_nonempty sep s : js_split sep s <> [].
Proof.
  destruct s as [|c s]; simpl; [discriminate|].
  destruct (Ascii.eqb c sep); [discriminate|].
  destruct (js_split sep s); discriminate.
Qed.

(** [contracts()] is the clean command, then the build command, then the
    artifact scan. *)
Lemma contracts_steps w :
  contracts E cfg w
  = bind (run_if_any E cfg (clean_command E cfg))
      (fun _ => bind (run_if_any E cfg (build_command E cfg))
                  (fun _ => artifact_scan E cfg)) w.
Proof.
  unfold contracts, clean_command, build_command, artifact_scan, getPackageManager.
  destruct (clean (commands cfg)) as [c|], (build (commands cfg)) as [b|];
    reflexivity.
Qed.

(** A command adds one event to the log, the process it is run as. *)
Lemma run_if_any_log command w :
  log (snd (run_if_any E cfg command w))
  = (log w ++ match command with Some s => [process_of E cfg s] | None => [] end)%list.
Proof.
  destruct command as [s|]; simpl; [|by rewrite app_nil_r].
  unfold execa_split, execa, process_of, logged.
  by destruct (run_process E _ _ _ w).
Qed.

Lemma getContract_log path w :
  log (snd (getContract cfg path w)) = (log w ++ [ReadJSON path])%list.
Proof.
  unfold getContract, readJSON, bind, ret, logged. simpl.
  by destruct (files (fs w) !! path) as [[a|]|].
Qed.

Lemma getContract_fs path w : fs (snd (getContract cfg path w)) = fs w.
Proof.
  unfold getContract, readJSON, bind, ret, logged. simpl.
  by destruct (files (fs w) !! path) as [[a|]|].
Qed.

Lemma getContract_result path w :
  fst (getContract cfg path w)
  = match files (fs w) !! path with
    | None => Err (ENOENT path)
    | Some FileNotJSON => Err (JSONSyntaxError path)
    | Some (FileArtifact a) =>
        Ok {| abi := artifact_abi a; name := getContractName cfg a |}
    end.
Proof.
  unfold getContract, readJSON, bind, ret, logged. simpl.
  by destruct (files (fs w) !! path) as [[a|]|].
Qed.

Lemma getContract_artifact path a w :
  files (fs w) !! path = Some (FileArtifact a) ->
  getContract cfg path w
  = (Ok {| abi := artifact_abi a; name := getContractName cfg a |},
     logged (ReadJSON path) w).
Proof. intros Hfile. unfold getContract, readJSON, bind, ret. by rewrite Hfile. Qed.

(** The loop of [contracts()] only reads artifacts. *)
Lemma contracts_loop_log paths acc w :
  exists events,
    log (snd (contracts_loop cfg paths acc w)) = (log w ++ events)%list
    /\ forallb is_scan_event events = true.
Proof.
  revert acc w. induction paths as [|path paths IH]; intros acc w; simpl.
  - exists []. by rewrite app_nil_r.
  - unfold bind at 1.
    pose proof (getContract_log path w) as Hlog.
    destruct (getContract cfg path w) as [[contract|e] w1]; simpl in Hlog.
    + destruct (no_length (abi contract));
        [destruct (IH acc w1) as (events & Hev & Hscan)
        |destruct (IH (acc ++ [contract])%list w1) as (events & Hev & Hscan)];
        exists (ReadJSON path :: events);
        (split; [by rewrite Hev, Hlog, <- app_assoc|done]).
    + exists [ReadJSON path]. simpl. by rewrite Hlog.
Qed.

Lemma contracts_loop_no_length paths acc w out w' :
  Forall (fun c => no_length (abi c) = false) acc ->
  contracts_loop cfg paths acc w = (Ok out, w') ->
  Forall (fun c => no_length (abi c) = false) out.
Proof.
  revert acc w. induction paths as [|path paths IH]; intros acc w Hacc; simpl.
  - unfold ret. by intros [= <- <-].
  - unfold bind at 1.
    destruct (getContract cfg path w) as [[contract|e] w1]; [|discriminate].
    destruct (no_length (abi contract)) eqn:Hlen.
    + by apply IH.
    + apply IH. apply Forall_app. split; [done|]. by constructor.
Qed.

(** The scan starts by looking for the artifacts directory, and does nothing
    but look, search and read. *)
Lemma artifact_scan_log w :
  exists events,
    log (snd (artifact_scan E cfg w))
    = (log w ++ PathExistsSync (artifactsDirectory cfg) :: events)%list
    /\ forallb is_scan_event events = true.
Proof.
  unfold artifact_scan, pathExistsSync, getArtifactPaths, globby, bind, throw, logged.
  simpl.
  destruct (bool_decide _ || bool_decide _); simpl; [|by exists []].
  destruct (glob E _ _) as [paths|e]; simpl; [|eexists [_]; by rewrite <- app_assoc].
  match goal with |- context [contracts_loop cfg paths [] ?w0] =>
    destruct (contracts_loop_log paths [] w0) as (events & Hev & Hscan) end.
  eexists (_ :: events). rewrite Hev. simpl. by rewrite <- !app_assoc.
Qed.

Lemma artifact_scan_missing_directory w :
  artifactsDirectory cfg ∉ directories (fs w) ->
  files (fs w) !! artifactsDirectory cfg = None ->
  fst (artifact_scan E cfg w) = Err (JsError "Artifacts not found.").
Proof.
  intros Hdir Hfile.
  unfold artifact_scan, pathExistsSync, bind, throw, logged. simpl.
  rewrite bool_decide_eq_false_2 by done.
  rewrite bool_decide_eq_false_2; [done|].
  rewrite Hfile. by intros [? ?].
Qed.

Lemma artifact_scan_no_length w out w' :
  artifact_scan E cfg w = (Ok out, w') ->
  Forall (fun c => no_length (abi c) = false) out.
Proof.
  unfold artifact_scan, pathExistsSync, getArtifactPaths, globby, bind, throw, logged.
  simpl.
  destruct (bool_decide _ || bool_decide _); simpl; [|discriminate].
  destruct (glob E _ _) as [paths|e]; simpl; [|discriminate].
  by apply contracts_loop_no_length.
Qed.

(** [contracts()] keeps no artifact whose [abi] is missing or has no length. *)
Lemma contracts_no_length w out :
  fst (contracts E cfg w) = Ok out ->
  Forall (fun c => no_length (abi c) = false) out.
Proof.
  rewrite contracts_steps. unfold bind.
  destruct (run_if_any E cfg (clean_command E cfg) w) as [[[]|e] w1]; [|discriminate].
  destruct (run_if_any E cfg (build_command E cfg) w1) as [[[]|e] w2]; [|discriminate].
  destruct (artifact_scan E cfg w2) as [[out'|e] w3] eqn:Hscan; [|discriminate].
  simpl. intros [= <-]. by apply (artifact_scan_no_length w2 out' w3).
Qed.

(** The log of [contracts()]: the process of the clean command, then that of
    the build command, then the events of the scan. *)
Lemma contracts_log w :
  let started command :=
    match command with Some s => [process_of E cfg s] | None => [] end in
  exists builds scans,
    log (snd (contracts E cfg w))
    = (log w ++ started (clean_command E cfg) ++ builds ++ scans)%list
    /\ (builds = [] \/ builds = started (build_command E cfg))
    /\ forallb is_scan_event scans = true
    /\ (is_ok (fst (contracts E cfg w)) = true ->
        builds = started (build_command E cfg)
        /\ exists rest, scans = PathExistsSync (artifactsDirectory cfg) :: rest).
Proof.
  intros started. rewrite contracts_steps. unfold bind.
  pose proof (run_if_any_log (clean_command E cfg) w) as Hclean.
  fold (started (clean_command E cfg)) in Hclean.
  destruct (run_if_any E cfg (clean_command E cfg) w) as [[[]|e] w1];
    simpl in Hclean; simpl.
  - pose proof (run_if_any_log (build_command E cfg) w1) as Hbuild.
    fold (started (build_command E cfg)) in Hbuild.
    destruct (run_if_any E cfg (build_command E cfg) w1) as [[[]|e] w2];
      simpl in Hbuild; simpl.
    + destruct (artifact_scan_log w2) as (events & Hev & Hscan).
      exists (started (build_command E cfg)),
        (PathExistsSync (artifactsDirectory cfg) :: events).
      rewrite Hev, Hbuild, Hclean, <- !app_assoc.
      split; [done|]. split; [by right|]. split; [done|]. eauto.
    + exists (started (build_command E cfg)), [].
      rewrite Hbuild, Hclean, app_nil_r, <- app_assoc.
      split; [done|]. split; [by right|]. split; [done|]. discriminate.
  - exists [], []. rewrite Hclean, !app_nil_r.
    split; [done|]. split; [by left|]. split; [done|]. discriminate.
Qed.

(** C8: [contracts()] runs the clean command, when there is one, then the build
    command, when there is one, then the artifact scan: the log grows by the
    process of the clean command, then that of the build command, then the
    events of the scan, and a call that succeeds has done all three.  When
    the clean command, the build command or the scan fails, the call fails
    with that error, in the world the failing step left, and returns no
    list. *)
Theorem contracts_runs_clean_build_scan_in_order w :
  let started command :=
    match command with Some s => [process_of E cfg s] | None => [] end in
  (exists builds scans,
      log (snd (contracts E cfg w))
      = (log w ++ started (clean_command E cfg) ++ builds ++ scans)%list
      /\ (builds = [] \/ builds = started (build_command E cfg))
      /\ forallb is_scan_event scans = true
      /\ (is_ok (fst (contracts E cfg w)) = true ->
          builds = started (build_command E cfg)
          /\ exists rest, scans = PathExistsSync (artifactsDirectory cfg) :: rest))
  /\ (forall e w1,
        run_if_any E cfg (clean_command E cfg) w = (Err e, w1) ->
        contracts E cfg w = (Err e, w1))
  /\ (forall w1 e w2,
        run_if_any E cfg (clean_command E cfg) w = (Ok tt, w1) ->
        run_if_any E cfg (build_command E cfg) w1 = (Err e, w2) ->
        contracts E cfg w = (Err e, w2))
  /\ (forall w1 w2 e w3,
        run_if_any E cfg (clean_command E cfg) w = (Ok tt, w1) ->
        run_if_any E cfg (build_command E cfg) w1 = (Ok tt, w2) ->
        artifact_scan E cfg w2 = (Err e, w3) ->
        contracts E cfg w = (Err e, w3)).
Proof.
  intros started. split; [|split; [|split]].
  - apply contracts_log.
  - intros e w1 Hclean. rewrite contracts_steps. unfold bind. by rewrite Hclean.
  - intros w1 e w2 Hclean Hbuild. rewrite contracts_steps. unfold bind.
    by rewrite Hclean, Hbuild.
  - intros w1 w2 e w3 Hclean Hbuild Hscan. rewrite contracts_steps. unfold bind.
    by rewrite Hclean, Hbuild, Hscan.
Qed.

(** The loop of [onRemove] over artifacts that can all be read: either one
    of them has the removed name and the result is [undefined], or none has
    and the result is the removed name. *)
Lemma onRemove_loop_readable paths removed w :
  Forall (fun p => is_ok (fst (getContract cfg p w)) = true) paths ->
  (fst (onRemove_loop cfg paths removed w) = Ok None
   /\ exists p c, In p paths /\ fst (getContract cfg p w) = Ok c /\ name c = removed)
  \/ (fst (onRemove_loop cfg paths removed w) = Ok (Some removed)
      /\ forall p c, In p paths -> fst (getContract cfg p w) = Ok c -> name c <> removed).
Proof.
  assert (Hsame : forall p w1 w2,
             fs w1 = fs w2 -> fst (getContract cfg p w1) = fst (getContract cfg p w2)).
  { intros p w1 w2 Hfs. by rewrite !getContract_result, Hfs. }
  revert w. induction paths as [|path paths IH]; intros w Hread; simpl.
  - right. split; [done|]. by intros p c [].
  - apply Forall_cons in Hread as [Hpath Hread]. unfold bind.
    pose proof (getContract_fs path w) as Hfs.
    destruct (getContract cfg path w) as [[contract|e] w1] eqn:Hget;
      simpl in Hpath, Hfs; [|discriminate].
    destruct (String.eqb (name contract) removed) eqn:Hname.
    + left. split; [done|]. exists path, contract.
      rewrite Hget. apply String.eqb_eq in Hname. auto.
    + apply String.eqb_neq in Hname.
      assert (Hread1 : Forall (fun p => is_ok (fst (getContract cfg p w1)) = true) paths).
      { eapply Forall_impl; [exact Hread|]. intros p Hp. simpl in Hp.
        by rewrite (Hsame p w1 w Hfs). }
      destruct (IH w1 Hread1) as [[Hres (p & c & Hin & Hc & Hn)]|[Hres Hnone]].
      * left. split; [done|]. exists p, c. rewrite <- (Hsame p w1 w Hfs). auto.
      * right. split; [done|]. intros p c [<-|Hin] Hc.
        -- rewrite Hget in Hc. simpl in Hc. by injection Hc as <-.
        -- apply (Hnone p c Hin). by rewrite (Hsame p w1 w Hfs).
Qed.

(** [onRemove] is its loop over the paths of the scan. *)
Lemma onRemove_scan path w paths :
  fst (getArtifactPaths E cfg (artifactsDirectory cfg)
         (logged (ConsoleLog ["onRemove"; path]) w)) = Ok paths ->
  exists w1,
    fs w1 = fs w
    /\ onRemove E cfg path w
       = onRemove_loop cfg paths (removedContractName E cfg path) w1.
Proof.
  unfold onRemove, console_log, getArtifactPaths, globby, bind. simpl.
  intros ->. eexists. split; [|reflexivity]. reflexivity.
Qed.

Lemma onRemove_readable path w paths :
  fst (getArtifactPaths E cfg (artifactsDirectory cfg)
         (logged (ConsoleLog ["onRemove"; path]) w)) = Ok paths ->
  Forall (fun p => is_ok (fst (getContract cfg p w)) = true) paths ->
  let removed := removedContractName E cfg path in
  (fst (onRemove E cfg path w) = Ok None
   /\ exists p c, In p paths /\ fst (getContract cfg p w) = Ok c /\ name c = removed)
  \/ (fst (onRemove E cfg path w) = Ok (Some removed)
      /\ forall p c, In p paths -> fst (getContract cfg p w) = Ok c -> name c <> removed).
Proof.
  intros Hscan Hread removed.
  destruct (onRemove_scan path w paths Hscan) as (w1 & Hfs & ->).
  assert (Hsame : forall p, fst (getContract cfg p w1) = fst (getContract cfg p w)).
  { intros p. by rewrite !getContract_result, Hfs. }
  destruct (onRemove_loop_readable paths removed w1) as [[Hres (p & c & H)]|[Hres Hnone]].
  - eapply Forall_impl; [exact Hread|]. intros p Hp. simpl in Hp. by rewrite Hsame.
  - left. split; [done|]. exists p, c. by rewrite <- Hsame.
  - right. split; [done|]. intros p c Hin Hc. apply (Hnone p c Hin). by rewrite Hsame.
Qed.

Lemma readable_artifact p w :
  is_ok (fst (getContract cfg p w)) = true ->
  exists a, files (fs w) !! p = Some (FileArtifact a).
Proof.
  rewrite getContract_result.
  destruct (files (fs w) !! p) as [[a|]|]; [eauto|discriminate..].
Qed.

(** The loop of [onRemove] returns [undefined] at the first artifact that has
    the removed name, when the artifacts before it can be read. *)
Lemma onRemove_loop_match before p after removed fsys :
  Forall (fun q => exists a, files fsys !! q = Some (FileArtifact a)) before ->
  (exists a, files fsys !! p = Some (FileArtifact a) /\ getContractName cfg a = removed) ->
  forall w,
    fs w = fsys ->
    fst (onRemove_loop cfg (before ++ p :: after) removed w) = Ok None.
Proof.
  intros Hbefore (a & Hp & Hname).
  induction Hbefore as [|q before (b & Hq) _ IH]; intros w Hfs; simpl.
  - rewrite <- Hfs in Hp. unfold bind at 1.
    rewrite (getContract_artifact _ _ _ Hp). simpl.
    apply String.eqb_eq in Hname. by rewrite Hname.
  - rewrite <- Hfs in Hq. unfold bind at 1.
    rewrite (getContract_artifact _ _ _ Hq). simpl.
    destruct (String.eqb (getContractName cfg b) removed); [done|].
    by apply IH.
Qed.

Lemma onRemove_match path w before p after c :
  fst (getArtifactPaths E cfg (artifactsDirectory cfg)
         (logged (ConsoleLog ["onRemove"; path]) w)) = Ok (before ++ p :: after)%list ->
  Forall (fun q => is_ok (fst (getContract cfg q w)) = true) before ->
  fst (getContract cfg p w) = Ok c ->
  name c = removedContractName E cfg path ->
  fst (onRemove E cfg path w) = Ok None.
Proof.
  intros Hscan Hbefore Hc Hname.
  destruct (onRemove_scan path w _ Hscan) as (w1 & Hfs & ->).
  apply (onRemove_loop_match before p after _ (fs w)); [| |done].
  - eapply Forall_impl; [exact Hbefore|]. intros q Hq. by apply readable_artifact.
  - rewrite getContract_result in Hc.
    destruct (files (fs w) !! p) as [[a|]|]; try discriminate.
    injection Hc as <-. eauto.
Qed.

(** C4 (as the code has it): [onRemove(path)] scans the artifacts again.
    When some artifact of the scan yields a contract with the name derived
    from the removed path and every artifact before it in the scan can be
    read, it returns [undefined]; when every artifact of the scan can be
    read and none yields that name, it returns that name. *)
Theorem onRemove_undefined_when_name_still_defined path w paths :
  fst (getArtifactPaths E cfg (artifactsDirectory cfg)
         (logged (ConsoleLog ["onRemove"; path]) w)) = Ok paths ->
  let removed := removedContractName E cfg path in
  (forall before p after c,
      paths = (before ++ p :: after)%list ->
      Forall (fun q => is_ok (fst (getContract cfg q w)) = true) before ->
      fst (getContract cfg p w) = Ok c ->
      name c = removed ->
      fst (onRemove E cfg path w) = Ok None)
  /\ (Forall (fun q => is_ok (fst (getContract cfg q w)) = true) paths ->
      (forall p c, In p paths -> fst (getContract cfg p w) = Ok c -> name c <> removed) ->
      fst (onRemove E cfg path w) = Ok (Some removed)).
Proof.
  intros Hscan removed. split.
  - intros before p after c -> Hbefore Hc Hname.
    exact (onRemove_match path w before p after c Hscan Hbefore Hc Hname).
  - intros Hread Hnone.
    destruct (onRemove_readable path w paths Hscan Hread)
      as [[_ (p & c & Hin & Hc & Hn)]|[Hres _]]; [|done].
    by destruct (Hnone p c Hin Hc).
Qed.

(** C5 (as the code has it): the scan of [onRemove(path)] does not leave
    [path] out: when [path] is still among the artifacts found, its contract
    has the name derived from [path] and the artifacts before it in the scan
    can be read, the result is [undefined], whether or not any other
    artifact has that name. *)
Theorem onRemove_counts_removed_path_itself path w before after c :
  fst (getArtifactPaths E cfg (artifactsDirectory cfg)
         (logged (ConsoleLog ["onRemove"; path]) w)) = Ok (before ++ path :: after)%list ->
  Forall (fun q => is_ok (fst (getContract cfg q w)) = true) before ->
  fst (getContract cfg path w) = Ok c ->
  name c = removedContractName E cfg path ->
  fst (onRemove E cfg path w) = Ok None.
Proof. apply onRemove_match. Qed.

(** [watch.command] resolves to the listener for the rebuild command. *)
Lemma watch_command_listener run w :
  watch_command E cfg = Some run ->
  exists w1,
    run w
    = (Ok (on_all E cfg (hd "" (js_split " " (rebuild_command E cfg)))
             (tl (js_split " " (rebuild_command E cfg)))), w1).
Proof.
  unfold watch_command, rebuild_command.
  destruct (rebuild_wanted cfg); [|discriminate]. intros [= <-].
  unfold bind, logger_log, getPackageManager, ret. simpl.
  destruct (rebuild (commands cfg)) as [[|s]|]; simpl; eauto.
  destruct (String.eqb s ""); simpl; eauto.
Qed.

Lemma on_all_spec command options event w :
  on_all E cfg command options event w
  = if String.eqb event "change" || String.eqb event "add" || String.eqb event "unlink"
    then (Ok tt,
          {| fs := fs w;
             log := (log w ++ [ConsoleLog ["Rebuilding Hardhat project…"]]
                     ++ [Execa command options (resolve E (project cfg))])%list |})
    else (Ok tt, w).
Proof.
  unfold on_all, bind, console_log, execa_piped, ret, logged.
  destruct (String.eqb event "change"), (String.eqb event "add"),
    (String.eqb event "unlink"); simpl; by rewrite <- ?app_assoc.
Qed.

(** C6: the listener that [watch.command] registers returns at once, with no
    process started and nothing logged, for every event other than [add],
    [change] and [unlink]; for these three it starts the rebuild command. *)
Theorem watch_listener_rebuilds_only_on_add_change_unlink
    run w0 listener w1 event w :
  watch_command E cfg = Some run ->
  run w0 = (Ok listener, w1) ->
  (event <> "add" -> event <> "change" -> event <> "unlink" ->
   listener event w = (Ok tt, w))
  /\ (event = "add" \/ event = "change" \/ event = "unlink" ->
      listener event w
      = (Ok tt,
         {| fs := fs w;
            log := (log w ++ [ConsoleLog ["Rebuilding Hardhat project…"]]
                    ++ [process_of E cfg (rebuild_command E cfg)])%list |})).
Proof.
  intros Hcommand Hrun.
  destruct (watch_command_listener run w0 Hcommand) as (w1' & Hrun').
  rewrite Hrun in Hrun'. injection Hrun' as -> _.
  rewrite on_all_spec. split.
  - intros Hadd Hchange Hunlink.
    apply String.eqb_neq in Hadd, Hchange, Hunlink.
    by rewrite Hadd, Hchange, Hunlink.
  - intros [-> | [-> | ->]]; reflexivity.
Qed.

(** C7: [validate()] runs [hardhat --version] exactly when one of [clean],
    [build], [rebuild] was not supplied; when all three were supplied, be it
    as [false], it does nothing and succeeds. *)
Theorem validate_probes_iff_a_command_is_missing w :
  let probe :=
    Execa (packageManager E) ["hardhat"; "--version"] (resolve E (project cfg)) in
  (clean (commands cfg) = None \/ build (commands cfg) = None
   \/ rebuild (commands cfg) = None ->
   log (snd (validate E cfg w)) = (log w ++ [probe])%list)
  /\ (clean (commands cfg) <> None -> build (commands cfg) <> None ->
      rebuild (commands cfg) <> None ->
      validate E cfg w = (Ok tt, w)).
Proof.
  intros probe. unfold validate, getPackageManager, bind, try_catch, ret, execa, throw, logged.
  split.
  - intros Hmissing.
    destruct (clean (commands cfg)), (build (commands cfg)), (rebuild (commands cfg));
      try (destruct Hmissing as [?|[?|?]]; discriminate);
      simpl; by destruct (run_process E _ _ _ w).
  - intros Hclean Hbuild Hrebuild.
    by destruct (clean (commands cfg)), (build (commands cfg)), (rebuild (commands cfg)).
Qed.

Lemma js_split_hd_tl sep s :
  js_split sep s = hd "" (js_split sep s) :: tl (js_split sep s).
Proof. pose proof (js_split_nonempty sep s). by destruct (js_split sep s). Qed.

(** When single spaces are the only whitespace of [s] and no piece is empty,
    splitting at each space is splitting on whitespace. *)
Lemma js_split_on_single_spaces s :
  (forall c, In c (list_ascii_of_string s) -> is_whitespace c = true -> c = " "%char) ->
  Forall (fun piece => piece <> "") (js_split " " s) ->
  js_split " " s = spec_split_on_whitespace s.
Proof.
  intros Hspace Hpieces. unfold spec_split_on_whitespace.
  assert (Heq : whitespace_pieces s = js_split " " s).
  { clear Hpieces. induction s as [|c s IH]; simpl; [done|].
    rewrite IH by (intros c' Hin; apply Hspace; by right).
    destruct (Ascii.eqb c " ") eqn:Hc.
    - apply Ascii.eqb_eq in Hc as ->. reflexivity.
    - destruct (is_whitespace c) eqn:Hw; [|done].
      apply Ascii.eqb_neq in Hc. destruct Hc. apply Hspace; [by left|done]. }
  rewrite Heq. clear Heq Hspace.
  induction Hpieces as [|piece pieces Hpiece _ IH]; simpl; [done|].
  apply String.eqb_neq in Hpiece. rewrite Hpiece. simpl. by rewrite <- IH.
Qed.

Lemma whitespace_pieces_no_whitespace s :
  Forall (fun piece =>
            forall c, In c (list_ascii_of_string piece) -> is_whitespace c = false)
    (whitespace_pieces s).
Proof.
  induction s as [|c s IH]; simpl.
  - constructor; [|done]. by intros c [].
  - destruct (is_whitespace c) eqn:Hc.
    + constructor; [|done]. by intros c' [].
    + destruct (whitespace_pieces s) as [|piece pieces].
      * constructor; [|done]. simpl. by intros c' [<-|[]].
      * apply Forall_cons in IH as [Hpiece Hpieces].
        constructor; [|done]. simpl. intros c' [<-|Hin]; [done|]. by apply Hpiece.
Qed.

(** Every character of [s] other than the separator is in a piece. *)
Lemma js_split_covers sep s c :
  In c (list_ascii_of_string s) ->
  c <> sep ->
  exists piece, In piece (js_split sep s) /\ In c (list_ascii_of_string piece).
Proof.
  intros Hin Hc. induction s as [|a s IH]; simpl in *; [done|].
  destruct (Ascii.eqb a sep) eqn:Ha.
  - apply Ascii.eqb_eq in Ha as ->. destruct Hin as [->|Hin]; [done|].
    destruct (IH Hin) as (piece & Hpiece & Hcp). exists piece. split; [by right|done].
  - pose proof (js_split_nonempty sep s) as Hne.
    destruct (js_split sep s) as [|piece pieces]; [done|].
    destruct Hin as [->|Hin].
    + exists (String c piece). split; [by left|]. simpl. by left.
    + destruct (IH Hin) as (piece' & [<-|Hpiece] & Hcp).
      * exists (String a piece). split; [by left|]. simpl. by right.
      * exists piece'. split; [by right|done].
Qed.

(** Splitting at each space is splitting on whitespace only for such
    strings. *)
Lemma js_split_on_single_spaces_only s :
  js_split " " s = spec_split_on_whitespace s ->
  (forall c, In c (list_ascii_of_string s) -> is_whitespace c = true -> c = " "%char)
  /\ Forall (fun piece => piece <> "") (js_split " " s).
Proof.
  intros Heq. split.
  - intros c Hin Hw. destruct (Ascii.eqb c " ") eqn:Hc; [by apply Ascii.eqb_eq|].
    apply Ascii.eqb_neq in Hc.
    destruct (js_split_covers " " s c Hin Hc) as (piece & Hpiece & Hcp).
    rewrite Heq in Hpiece. unfold spec_split_on_whitespace in Hpiece.
    apply filter_In in Hpiece as [Hpiece _].
    pose proof (whitespace_pieces_no_whitespace s) as Hall.
    rewrite List.Forall_forall in Hall.
    rewrite (Hall piece Hpiece c Hcp) in Hw. discriminate.
  - rewrite Heq. unfold spec_split_on_whitespace.
    apply List.Forall_forall. intros piece Hpiece.
    apply filter_In in Hpiece as [_ Hpiece].
    apply negb_true_iff, String.eqb_neq in Hpiece. done.
Qed.

(** C9 (as the code has it): a command string is split at each single space,
    the first piece is the executable and the other pieces are its arguments,
    and the process runs in the resolved project path.  This is how
    [contracts()] runs the clean and the build command, these are the only
    processes it runs, and this is how the watch listener runs the rebuild
    command.  Splitting at each space is splitting on whitespace exactly when
    single spaces are the only whitespace of the string and no piece is
    empty. *)
Theorem commands_are_split_at_each_space w :
  let process s :=
    Execa (hd "" (js_split " " s)) (tl (js_split " " s)) (resolve E (project cfg)) in
  (forall events,
      log (snd (contracts E cfg w)) = (log w ++ events)%list ->
      (forall s, clean_command E cfg = Some s -> In (process s) events)
      /\ (forall s, build_command E cfg = Some s ->
                   is_ok (fst (contracts E cfg w)) = true -> In (process s) events)
      /\ (forall command options cwd,
             In (Execa command options cwd) events ->
             cwd = resolve E (project cfg)
             /\ exists s,
                 (clean_command E cfg = Some s \/ build_command E cfg = Some s)
                 /\ js_split " " s = command :: options))
  /\ (forall run w0 listener w1 event w',
        watch_command E cfg = Some run ->
        run w0 = (Ok listener, w1) ->
        event = "add" \/ event = "change" \/ event = "unlink" ->
        log (snd (listener event w'))
        = (log w' ++ [ConsoleLog ["Rebuilding Hardhat project…"]]
           ++ [process (rebuild_command E cfg)])%list)
  /\ (forall s,
        js_split " " s = spec_split_on_whitespace s
        <-> (forall c, In c (list_ascii_of_string s) -> is_whitespace c = true ->
                       c = " "%char)
            /\ Forall (fun piece => piece <> "") (js_split " " s)).
Proof.
  intros process. split; [|split].
  - intros events Hlog.
    destruct (contracts_log w) as (builds & scans & Hlog' & Hbuilds & Hscans & Hok).
    rewrite Hlog in Hlog'. apply app_inv_head in Hlog'. subst events.
    split; [|split].
    + intros s ->. apply in_or_app. left. by left.
    + intros s Hs Hsuccess. destruct (Hok Hsuccess) as [-> _]. rewrite Hs.
      apply in_or_app. right. apply in_or_app. left. by left.
    + intros command options cwd Hin.
      assert (Hprocess : forall s, Execa command options cwd = process_of E cfg s ->
                cwd = resolve E (project cfg) /\ js_split " " s = command :: options).
      { intros s [= -> -> ->]. split; [done|]. apply js_split_hd_tl. }
      apply in_app_or in Hin as [Hin|Hin].
      * destruct (clean_command E cfg) as [s|]; [|by destruct Hin].
        destruct Hin as [Heq|[]]. destruct (Hprocess s (eq_sym Heq)). eauto.
      * apply in_app_or in Hin as [Hin|Hin].
        -- destruct Hbuilds as [->| ->]; [by destruct Hin|].
           destruct (build_command E cfg) as [s|]; [|by destruct Hin].
           destruct Hin as [Heq|[]]. destruct (Hprocess s (eq_sym Heq)). eauto.
        -- rewrite forallb_forall in Hscans. by apply Hscans in Hin.
  - intros run w0 listener w1 event w' Hcommand Hrun Hevent.
    destruct (watch_command_listener run w0 Hcommand) as (w1' & Hrun').
    rewrite Hrun in Hrun'. injection Hrun' as -> _.
    rewrite on_all_spec. by destruct Hevent as [-> | [-> | ->]].
  - intros s. split.
    + apply js_split_on_single_spaces_only.
    + intros [Hspace Hpieces]. by apply js_split_on_single_spaces.
Qed.

End HardhatFacts.

(** * The claims on concrete runs *)

Section Runs.

Import FetchExample HardhatExample.

(** C1 (the code departs from it): the network is down and there is no cache
    file for the cache key; [contracts()] fails with the error of reading the
    cache file, not with the error of the fetch.  [fse.readJSON] rejects on a
    missing file, so [if (!abi) throw error] is not reached. *)
Theorem fetch_failure_without_cache_raises_read_error :
  Fetch.live_fetch offline config abiRequest no_cache = Err (Thrown "request failed")
  /\ Fetch.files no_cache !! cachePath = None
  /\ fst (Fetch.contracts offline config no_cache) = Err (ENOENT cachePath)
  /\ fst (Fetch.contracts offline config no_cache) <> Err (Thrown "request failed").
Proof.
  split; [reflexivity|]. split; [reflexivity|].
  assert (Hrun : fst (Fetch.contracts offline config no_cache) = Err (ENOENT cachePath)).
  { unfold Fetch.contracts. simpl. unfold bind at 1.
    pose proof (contracts_body_cache_miss offline config wagmiMint [] no_cache
                  abiRequest (Thrown "request failed") eq_refl eq_refl eq_refl) as Hmiss.
    destruct (Fetch.contracts_body offline config wagmiMint [] no_cache) as [[out|e] w1];
      simpl in Hmiss; [discriminate|]. simpl. exact Hmiss. }
  split; [exact Hrun|]. rewrite Hrun. discriminate.
Qed.

(** C2, refuted for the [fetch] plugin: the server answers an empty ABI and
    [contracts()] returns the record with that empty ABI. *)
Lemma fetch_contracts_returns_empty_abi_entry :
  fst (Fetch.contracts (online (JArray [])) config no_cache)
  = Ok [{| Fetch.abi := JArray [];
           Fetch.contract_address := Fetch.address wagmiMint;
           Fetch.contract_name := "WagmiMint" |}].
Proof. reflexivity. Qed.

(** C2 (as the code has it): the [hardhat] plugin returns no contract whose
    ABI is missing, is an empty sequence or has otherwise no length (every
    contract returned passes the test [contract.abi?.length]); the [fetch]
    plugin does not filter: when it succeeds it returns one record for each
    configured contract, in order, with that contract's address and name,
    whatever the ABI. *)
Theorem empty_abi_dropped_by_hardhat_kept_by_fetch :
  (forall E cfg w out,
      fst (Hardhat.contracts E cfg w) = Ok out ->
      forall c,
        In c out ->
        Hardhat.no_length (Hardhat.abi c) = false
        /\ Hardhat.abi c <> Some (JArray [])
        /\ Hardhat.abi c <> None)
  /\ (forall (RequestInit Response : Type) (E : Fetch.Env RequestInit Response)
             cfg w out,
        fst (Fetch.contracts E cfg w) = Ok out ->
        map (fun c => (Fetch.contract_address c, Fetch.contract_name c)) out
        = map (fun c => (Fetch.address c, Fetch.name c)) (Fetch.contractConfigs cfg)).
Proof.
  split.
  - intros E cfg w out Hout c Hin.
    pose proof (contracts_no_length E cfg w out Hout) as Hall.
    rewrite List.Forall_forall in Hall. apply Hall in Hin.
    split; [done|]. split; intros Habi; rewrite Habi in Hin; discriminate.
  - intros RequestInit Response E cfg w out Hout.
    destruct (Fetch.contracts E cfg w) as [r w'] eqn:Hrun. simpl in Hout. subst r.
    exact (contracts_loop_keeps_all E cfg _ [] w out w' Hrun).
Qed.

Lemma empty_abi_dropped_by_hardhat_kept_by_fetch_witness :
  (forall c,
      In c [{| Hardhat.abi := Some (JArray transferAbi); Hardhat.name := "Token" |}] ->
      Hardhat.no_length (Hardhat.abi c) = false
      /\ Hardhat.abi c <> Some (JArray [])
      /\ Hardhat.abi c <> None)
  /\ map (fun c => (Fetch.contract_address c, Fetch.contract_name c))
       [Fetch.resolved wagmiMint (JArray [])]
     = map (fun c => (Fetch.address c, Fetch.name c)) (Fetch.contractConfigs config).
Proof.
  split.
  - apply (proj1 empty_abi_dropped_by_hardhat_kept_by_fetch
             (env "" [tokenPath; interfacePath]) (Hardhat.config_of_project "proj") built).
    vm_compute. reflexivity.
  - apply (proj2 empty_abi_dropped_by_hardhat_kept_by_fetch
             unit json (online (JArray [])) config no_cache).
    reflexivity.
Defined.

(** C3, refuted: the network is down and the cache file of the contract
    holds an ABI, but may not be written; [contracts()] reads it and then
    fails on writing it back. *)
Lemma fetch_failure_with_read_only_cache_entry_throws :
  Fetch.live_fetch offline config abiRequest (cached_read_only (JArray mintAbi))
  = Err (Thrown "request failed")
  /\ Fetch.readJSON cachePath (cached_read_only (JArray mintAbi))
     = (Ok (JArray mintAbi),
        Fetch.logged (Fetch.ReadJSON cachePath) (cached_read_only (JArray mintAbi)))
  /\ fst (Fetch.contracts offline config (cached_read_only (JArray mintAbi)))
     = Err (EACCES cachePath).
Proof. repeat split. Qed.

Lemma fetch_failure_with_cache_entry_witness :
  fst (Fetch.contracts offline config (cached (JArray mintAbi)))
  = Ok [Fetch.resolved wagmiMint (JArray mintAbi)].
Proof.
  apply (proj1 (proj2 (fetch_failure_with_cache_entry_returns_cached_abi
                         offline config [] wagmiMint [] (cached (JArray mintAbi))
                         [] (cached (JArray mintAbi)) abiRequest
                         (Thrown "request failed") mintAbi
                         eq_refl eq_refl eq_refl eq_refl eq_refl))).
  reflexivity.
Defined.

(** C10, refuted: the live fetch succeeds, so the ABI of the contract is
    resolved, but there is no cache directory; the write fails, the call
    with it, and no cache file is left. *)
Lemma fetch_resolved_abi_not_written_without_directory :
  Fetch.live_fetch (online (JArray mintAbi)) config abiRequest no_cache_directory
  = Ok (JArray mintAbi)
  /\ fst (Fetch.contracts (online (JArray mintAbi)) config no_cache_directory)
     = Err (ENOENT cachePath)
  /\ Fetch.files (snd (Fetch.contracts (online (JArray mintAbi)) config
                         no_cache_directory)) !! cachePath
     = None.
Proof. repeat split. Qed.

Lemma fetch_resolved_abi_written_witness :
  (exists w',
      Fetch.contracts_body offline config wagmiMint [] (cached (JArray mintAbi))
      = (Ok [Fetch.resolved wagmiMint (JArray mintAbi)], w')
      /\ Fetch.files w' !! cachePath = Some (Fetch.FileJSON (JArray mintAbi))
      /\ Fetch.log w'
         = [Fetch.NodeFetch "https://example.org/abi/wagmi-mint.json" None;
            Fetch.ReadJSON cachePath;
            Fetch.WriteJSON cachePath (JArray mintAbi)])
  /\ Fetch.contracts_body (online (JArray mintAbi)) config wagmiMint [] no_cache_directory
     = (Err (ENOENT cachePath),
        {| Fetch.files := ∅;
           Fetch.log := [Fetch.NodeFetch "https://example.org/abi/wagmi-mint.json" None;
                         Fetch.WriteJSON cachePath (JArray mintAbi)] |}).
Proof.
  split.
  - apply (proj1 (proj2 (fetch_resolved_abi_written_to_cache
                           offline config wagmiMint [] (cached (JArray mintAbi)) abiRequest
                           (JArray mintAbi) eq_refl)
                    (ex_intro _ (Thrown "request failed") eq_refl) eq_refl)).
    reflexivity.
  - apply (proj2 (proj1 (fetch_resolved_abi_written_to_cache
                           (online (JArray mintAbi)) config wagmiMint []
                           no_cache_directory abiRequest (JArray mintAbi) eq_refl)
                    eq_refl)).
    reflexivity.
Defined.

(** C4, refuted: an artifact that is gone from the files is found by the
    scan before the artifact that still has the removed name, and [onRemove]
    rejects instead of returning [undefined]; and with no artifact of the
    removed name at all, an artifact that cannot be read makes it reject
    instead of returning the name. *)
Lemma onRemove_rejects_despite_name_still_defined :
  (fst (Hardhat.getContract (Hardhat.config_of_project "proj") tokenPath built)
   = Ok {| Hardhat.abi := Some (JArray transferAbi); Hardhat.name := "Token" |}
   /\ Hardhat.removedContractName (env "" [gonePath; tokenPath])
        (Hardhat.config_of_project "proj") movedPath = "Token"
   /\ fst (Hardhat.onRemove (env "" [gonePath; tokenPath])
             (Hardhat.config_of_project "proj") movedPath built)
      = Err (ENOENT gonePath))
  /\ (Hardhat.removedContractName (env "" [tokenPath; gonePath])
        (Hardhat.config_of_project "proj") gonePath = "Gone"
      /\ fst (Hardhat.onRemove (env "" [tokenPath; gonePath])
                (Hardhat.config_of_project "proj") gonePath built)
         = Err (ENOENT gonePath)).
Proof. repeat split. Qed.

Lemma onRemove_undefined_when_name_still_defined_witness :
  fst (Hardhat.onRemove (env "" [interfacePath; tokenPath; gonePath])
         (Hardhat.config_of_project "proj") movedPath built) = Ok None
  /\ fst (Hardhat.onRemove (env "" [tokenPath; interfacePath])
            (Hardhat.config_of_project "proj") gonePath built) = Ok (Some "Gone").
Proof.
  split.
  - apply (proj1 (onRemove_undefined_when_name_still_defined
                    (env "" [interfacePath; tokenPath; gonePath])
                    (Hardhat.config_of_project "proj")
                    movedPath built [interfacePath; tokenPath; gonePath] eq_refl)
             [interfacePath] tokenPath [gonePath]
             {| Hardhat.abi := Some (JArray transferAbi); Hardhat.name := "Token" |}).
    + reflexivity.
    + repeat constructor.
    + reflexivity.
    + reflexivity.
  - apply (proj2 (onRemove_undefined_when_name_still_defined
                    (env "" [tokenPath; interfacePath]) (Hardhat.config_of_project "proj")
                    gonePath built [tokenPath; interfacePath] eq_refl)).
    + repeat constructor.
    + intros p c [<-|[<-|[]]] [= <-]; discriminate.
Defined.

(** C5, refuted: the removed path is still found by the scan, with its own
    name, but after an artifact that is gone from the files; [onRemove]
    rejects instead of returning [undefined]. *)
Lemma onRemove_rejects_despite_removed_path_present :
  In tokenPath [gonePath; tokenPath]
  /\ fst (Hardhat.getContract (Hardhat.config_of_project "proj") tokenPath built)
     = Ok {| Hardhat.abi := Some (JArray transferAbi); Hardhat.name := "Token" |}
  /\ Hardhat.removedContractName (env "" [gonePath; tokenPath])
       (Hardhat.config_of_project "proj") tokenPath = "Token"
  /\ fst (Hardhat.onRemove (env "" [gonePath; tokenPath])
            (Hardhat.config_of_project "proj") tokenPath built)
     = Err (ENOENT gonePath).
Proof. split; [by right; left|]. repeat split. Qed.

Lemma onRemove_counts_removed_path_itself_witness :
  fst (Hardhat.onRemove (env "" [tokenPath; gonePath]) (Hardhat.config_of_project "proj")
         tokenPath built) = Ok None.
Proof.
  apply (onRemove_counts_removed_path_itself
           (env "" [tokenPath; gonePath]) (Hardhat.config_of_project "proj") tokenPath built
           [] [gonePath]
           {| Hardhat.abi := Some (JArray transferAbi); Hardhat.name := "Token" |}).
  - reflexivity.
  - constructor.
  - reflexivity.
  - reflexivity.
Defined.

Lemma watch_listener_witness :
  default_listener "addDir" built = (Ok tt, built)
  /\ Hardhat.log (snd (default_listener "change" built))
     = [Hardhat.ConsoleLog ["Rebuilding Hardhat project…"];
        Hardhat.Execa "pnpm" ["hardhat"; "compile"] "/work/proj"].
Proof.
  split.
  - apply (proj1 (watch_listener_rebuilds_only_on_add_change_unlink
                    (env "" []) (Hardhat.config_of_project "proj")
                    default_run built default_listener (snd (default_run built))
                    "addDir" built eq_refl eq_refl)); discriminate.
  - rewrite (proj2 (watch_listener_rebuilds_only_on_add_change_unlink
                      (env "" []) (Hardhat.config_of_project "proj")
                      default_run built default_listener (snd (default_run built))
                      "change" built eq_refl eq_refl)); [reflexivity|].
    right. by left.
Defined.

Lemma validate_probes_witness :
  Hardhat.validate (env "" []) (with_commands all_off) built = (Ok tt, built)
  /\ Hardhat.log (snd (Hardhat.validate (env "" []) (Hardhat.config_of_project "proj") built))
     = [Hardhat.Execa "pnpm" ["hardhat"; "--version"] "/work/proj"].
Proof.
  split.
  - apply (proj2 (validate_probes_iff_a_command_is_missing
                    (env "" []) (with_commands all_off) built)); discriminate.
  - apply (proj1 (validate_probes_iff_a_command_is_missing
                    (env "" []) (Hardhat.config_of_project "proj") built)).
    by left.
Defined.

(** The build fails after the clean has run: the call fails, and the log
    holds the clean process, then the build process, and no scan. *)
Lemma contracts_failing_build_witness :
  Hardhat.contracts (env "make" [tokenPath]) (with_commands make_commands) built
  = (Err (Thrown "exit code 1"),
     {| Hardhat.fs := Hardhat.fs built;
        Hardhat.log := [Hardhat.Execa "rm" ["-rf"; "cache"] "/work/proj";
                        Hardhat.Execa "make" ["contracts"] "/work/proj"] |}).
Proof.
  apply (proj1 (proj2 (proj2 (contracts_runs_clean_build_scan_in_order
                               (env "make" [tokenPath]) (with_commands make_commands)
                               built)))
           {| Hardhat.fs := Hardhat.fs built;
              Hardhat.log := [Hardhat.Execa "rm" ["-rf"; "cache"] "/work/proj"] |});
    reflexivity.
Defined.

(** C9, refuted: a clean command with two spaces in a row is run with an empty
    first argument, and a build command with a tab is run with the tab inside
    the name of the executable; splitting them on whitespace gives the
    processes [npx hardhat clean] and [npx hardhat compile], which are not
    what is run. *)
Lemma commands_not_split_on_whitespace :
  Hardhat.log (snd (Hardhat.contracts (env "" []) (with_commands loosely_spaced) built))
  = [Hardhat.Execa "npx" [""; "hardhat"; "clean"] "/work/proj";
     Hardhat.Execa ("npx" +:+ tab +:+ "hardhat") ["compile"] "/work/proj";
     Hardhat.PathExistsSync "proj/artifacts";
     Hardhat.Globby ["proj/artifacts/**/*.json"; "!proj/artifacts/**/build-info/**";
                     "!proj/artifacts/**/*.dbg.json"]]
  /\ spec_split_on_whitespace "npx  hardhat clean" = ["npx"; "hardhat"; "clean"]
  /\ spec_split_on_whitespace ("npx" +:+ tab +:+ "hardhat compile") = ["npx"; "hardhat"; "compile"]
  /\ ~ In (Hardhat.Execa "npx" ["hardhat"; "clean"] "/work/proj")
         (Hardhat.log (snd (Hardhat.contracts (env "" []) (with_commands loosely_spaced) built)))
  /\ ~ In (Hardhat.Execa "npx" ["hardhat"; "compile"] "/work/proj")
         (Hardhat.log (snd (Hardhat.contracts (env "" []) (with_commands loosely_spaced) built))).
Proof.
  assert (Hlog : Hardhat.log (snd (Hardhat.contracts (env "" []) (with_commands loosely_spaced) built))
                 = [Hardhat.Execa "npx" [""; "hardhat"; "clean"] "/work/proj";
                    Hardhat.Execa ("npx" +:+ tab +:+ "hardhat") ["compile"] "/work/proj";
                    Hardhat.PathExistsSync "proj/artifacts";
                    Hardhat.Globby ["proj/artifacts/**/*.json";
                                    "!proj/artifacts/**/build-info/**";
                                    "!proj/artifacts/**/*.dbg.json"]])
    by (vm_compute; reflexivity).
  split; [exact Hlog|]. split; [reflexivity|]. split; [reflexivity|].
  rewrite Hlog. split; intros [H|[H|[H|[H|[]]]]]; discriminate.
Qed.

Lemma commands_are_split_at_each_space_witness :
  In (Hardhat.Execa "npx" [""; "hardhat"; "clean"] "/work/proj")
     (Hardhat.log (snd (Hardhat.contracts (env "" []) (with_commands loosely_spaced) built)))
  /\ js_split " " "pnpm hardhat compile" = spec_split_on_whitespace "pnpm hardhat compile".
Proof.
  split.
  - apply (proj1 (proj1 (commands_are_split_at_each_space
                           (env "" []) (with_commands loosely_spaced) built) _ eq_refl)
             "npx  hardhat clean" eq_refl).
  - apply (proj2 (proj2 (commands_are_split_at_each_space
                           (env "" []) (with_commands loosely_spaced) built))).
    split.
    + intros c Hin Hc. vm_compute in Hin.
      repeat (destruct Hin as [<-|Hin]; [first [reflexivity|discriminate]|]).
      destruct Hin.
    + repeat constructor; discriminate.
Defined.

End Runs.

(** * More about the [fetch] plugin: the cache across calls *)

Section FetchCache.

Import Fetch.

Context {RequestInit Response : Type}.
Context (E : Env RequestInit Response) (cfg : FetchConfig RequestInit Response).

Implicit Types (contract : Contract) (acc : list ContractConfig).
Implicit Types (w : World RequestInit) (r : Request RequestInit).

Local Abbreviation path_of contract := (cacheFile E (getCacheKey cfg contract)).

Lemma contracts_body_request_error contract acc w e :
  request cfg contract = Err e ->
  contracts_body E cfg contract acc w = (Err e, w).
Proof. intros Hr. unfold contracts_body, bind, lift. by rewrite Hr. Qed.

Lemma contracts_body_ok_request contract acc w out w' :
  contracts_body E cfg contract acc w = (Ok out, w') ->
  is_ok (request cfg contract) = true.
Proof.
  destruct (request cfg contract) as [r|e] eqn:Hr; [done|].
  by rewrite (contracts_body_request_error _ _ _ _ Hr).
Qed.

(** Whatever its outcome, the loop body leaves every file but the cache file
    of its contract as it was. *)
Lemma contracts_body_frame contract acc w res w' p :
  contracts_body E cfg contract acc w = (res, w') ->
  p <> path_of contract ->
  files w' !! p = files w !! p.
Proof.
  intros Hbody Hp.
  destruct (request cfg contract) as [r|e] eqn:Hr.
  - destruct (live_fetch E cfg r w) as [abi|e] eqn:Hlive.
    + rewrite (contracts_body_live E cfg _ _ _ _ _ Hr Hlive) in Hbody.
      simpl in Hbody.
      destruct (write_error _ _); injection Hbody as _ <-; simpl; [done|].
      by rewrite lookup_insert_ne.
    + rewrite (contracts_body_fallback E cfg _ _ _ _ _ Hr Hlive) in Hbody.
      simpl in Hbody.
      destruct (files w !! path_of contract) as [[v| |v|]|];
        try destruct (truthy v); injection Hbody as _ <-; simpl; try done.
      by rewrite lookup_insert_ne.
  - rewrite (contracts_body_request_error _ _ _ _ Hr) in Hbody. by injection Hbody as _ <-.
Qed.

Lemma contracts_loop_frame todo acc w res w' p :
  contracts_loop E cfg todo acc w = (res, w') ->
  (forall contract, In contract todo -> p <> path_of contract) ->
  files w' !! p = files w !! p.
Proof.
  revert acc w. induction todo as [|contract todo IH]; intros acc w; simpl.
  - unfold ret. by intros [= _ <-].
  - unfold bind at 1. intros Hloop Hp.
    destruct (contracts_body E cfg contract acc w) as [[acc'|e] w1] eqn:Hbody.
    + rewrite (IH _ _ Hloop) by (intros c Hc; apply Hp; by right).
      apply (contracts_body_frame _ _ _ _ _ _ Hbody). apply Hp. by left.
    + injection Hloop as _ <-.
      apply (contracts_body_frame _ _ _ _ _ _ Hbody). apply Hp. by left.
Qed.

(** What a successful run leaves in the cache, when no two contracts share a
    cache file. *)
Lemma contracts_loop_cached todo acc w out w' :
  NoDup (map (fun contract => path_of contract) todo) ->
  contracts_loop E cfg todo acc w = (Ok out, w') ->
  exists news,
    out = (acc ++ news)%list
    /\ Forall2 (fun contract record =>
                 record = resolved contract (abi record)
                 /\ files w' !! path_of contract = Some (FileJSON (abi record))
                 /\ is_ok (request cfg contract) = true) todo news.
Proof.
  revert acc w. induction todo as [|contract todo IH]; intros acc w Hnodup; simpl.
  - unfold ret. intros [= <- <-]. exists []. by rewrite app_nil_r.
  - unfold bind at 1.
    destruct (contracts_body E cfg contract acc w) as [[acc'|e] w1] eqn:Hbody;
      [|discriminate].
    intros Hloop. apply NoDup_cons in Hnodup as [Hfresh Hnodup].
    pose proof (contracts_body_ok_request _ _ _ _ _ Hbody) as Hrequest.
    destruct (contracts_body_pushes E cfg _ _ _ _ _ Hbody) as (abi0 & -> & Hfiles).
    destruct (IH _ _ Hnodup Hloop) as (news & -> & Hnews).
    exists (resolved contract abi0 :: news). split; [by rewrite <- app_assoc|].
    constructor; [|done]. split; [done|]. split; [|done].
    rewrite (contracts_loop_frame _ _ _ _ _ (path_of contract) Hloop).
    + rewrite Hfiles. apply lookup_insert_eq.
    + intros c Hc Heq. apply Hfresh. apply list_elem_of_In, in_map_iff. eauto.
Qed.

Lemma cacheFile_homedir (E' : Env RequestInit Response) cacheKey :
  homedir E' = homedir E -> cacheFile E' cacheKey = cacheFile E cacheKey.
Proof. intros Hhome. unfold cacheFile, cacheDir. by rewrite Hhome. Qed.

(** A run with the network down, over a cache that holds a truthy value for
    every contract, returns these values and leaves the files as they are. *)
Lemma contracts_loop_offline (E' : Env RequestInit Response) todo news :
  homedir E' = homedir E ->
  (forall r w0, exists e, live_fetch E' cfg r w0 = Err e) ->
  forall m,
    Forall2 (fun contract record =>
               record = resolved contract (abi record)
               /\ m !! path_of contract = Some (FileJSON (abi record))
               /\ truthy (abi record) = true
               /\ is_ok (request cfg contract) = true) todo news ->
    forall acc w,
      files w = m ->
      exists w',
        contracts_loop E' cfg todo acc w = (Ok (acc ++ news)%list, w')
        /\ files w' = m.
Proof.
  intros Hhome Hoffline m Hall.
  induction Hall as [|contract record todo news (Hrecord & Hfile & Htruthy & Hrequest) _ IH];
    intros acc w Hm; simpl.
  - exists w. by rewrite app_nil_r.
  - destruct (request cfg contract) as [r|] eqn:Hr; [|discriminate].
    destruct (Hoffline r w) as [e Hlive].
    pose proof (contracts_body_fallback E' cfg contract acc w r e Hr Hlive) as Hbody.
    simpl in Hbody. rewrite (cacheFile_homedir E' _ Hhome), Hm, Hfile, Htruthy in Hbody.
    unfold bind at 1. rewrite Hbody.
    rewrite (insert_id m) by done.
    match goal with |- context [contracts_loop E' cfg todo ?acc1 ?w1] =>
      destruct (IH acc1 w1 eq_refl) as (w' & Hloop & Hfiles) end.
    exists w'. split; [|done]. rewrite Hloop, <- app_assoc. simpl.
    by rewrite <- Hrecord.
Qed.

(** X1: the cache round trip.  After a call of [contracts()] that succeeded
    with truthy ABIs, for contracts that have each their own cache file, a
    call with the same configuration in which every live fetch fails returns
    the same records. *)
Theorem fetch_cache_round_trip (E' : Env RequestInit Response) w out w1 w2 :
  contracts E cfg w = (Ok out, w1) ->
  NoDup (map (fun contract => path_of contract) (contractConfigs cfg)) ->
  Forall (fun record => truthy (abi record) = true) out ->
  homedir E' = homedir E ->
  (forall r w0, exists e, live_fetch E' cfg r w0 = Err e) ->
  files w2 = files w1 ->
  fst (contracts E' cfg w2) = Ok out.
Proof.
  intros Hrun Hnodup Htruthy Hhome Hoffline Hfiles.
  destruct (contracts_loop_cached _ _ _ _ _ Hnodup Hrun) as (news & -> & Hnews).
  simpl in Htruthy.
  assert (Hall : Forall2 (fun contract record =>
               record = resolved contract (abi record)
               /\ files w1 !! path_of contract = Some (FileJSON (abi record))
               /\ truthy (abi record) = true
               /\ is_ok (request cfg contract) = true) (contractConfigs cfg) news).
  { clear Hrun Hnodup. induction Hnews as [|c rec todo news (? & ? & ?) Hnews IH];
      constructor.
    - apply Forall_cons in Htruthy as [? _]. auto.
    - apply IH. by apply Forall_cons in Htruthy as [_ ?]. }
  destruct (contracts_loop_offline E' _ _ Hhome Hoffline _ Hall [] w2 Hfiles)
    as (w' & Hloop & _).
  unfold contracts. by rewrite Hloop.
Qed.

(** X2: whatever its outcome, [contracts()] changes no file other than the
    cache files of the configured contracts. *)
Theorem fetch_contracts_touches_only_its_cache_files w p :
  (forall contract, In contract (contractConfigs cfg) -> p <> path_of contract) ->
  files (snd (contracts E cfg w)) !! p = files w !! p.
Proof.
  intros Hp. unfold contracts.
  destruct (contracts_loop E cfg (contractConfigs cfg) [] w) as [res w'] eqn:Hloop.
  exact (contracts_loop_frame _ _ _ _ _ _ Hloop Hp).
Qed.

(** X3: when the live fetch fails and the cache file is there but unusable,
    the loop body fails: with the error of the fetch when the file holds a
    false JSON value, with the syntax error of the file when it is not
    JSON. *)
Theorem fetch_failure_with_unusable_cache_file contract acc w r e :
  request cfg contract = Ok r ->
  live_fetch E cfg r w = Err e ->
  (forall v,
      files w !! path_of contract = Some (FileJSON v) ->
      truthy v = false ->
      fst (contracts_body E cfg contract acc w) = Err e)
  /\ (files w !! path_of contract = Some FileNotJSON ->
      fst (contracts_body E cfg contract acc w)
      = Err (JSONSyntaxError (path_of contract))).
Proof.
  intros Hr Hlive.
  pose proof (contracts_body_fallback E cfg contract acc w r e Hr Hlive) as Hbody.
  simpl in Hbody. rewrite Hbody. split.
  - intros v -> ->. reflexivity.
  - intros ->. reflexivity.
Qed.

(** X4: when [request] throws for a contract, the call fails with that error
    there and then: nothing is fetched, read or written for this contract or
    for the ones after it. *)
Theorem fetch_request_error_stops_before_any_io contract todo acc w e :
  request cfg contract = Err e ->
  contracts_loop E cfg (contract :: todo) acc w = (Err e, w).
Proof.
  intros Hr. simpl. unfold bind at 1.
  by rewrite (contracts_body_request_error _ _ _ _ Hr).
Qed.

(** X5: [contracts()] stops at the first contract that fails.  The call
    fails with the error of that contract, in the world its loop body left:
    the cache files written for the contracts before it stay written, and
    the contracts after it have no part in the outcome. *)
Theorem fetch_contracts_stops_at_first_failure
    before contract after acc w acc1 w1 e w2 :
  contracts_loop E cfg before acc w = (Ok acc1, w1) ->
  contracts_body E cfg contract acc1 w1 = (Err e, w2) ->
  contracts_loop E cfg (before ++ contract :: after) acc w = (Err e, w2).
Proof.
  intros Hbefore Hbody. rewrite contracts_loop_app. unfold bind at 1.
  rewrite Hbefore. simpl. unfold bind at 1. by rewrite Hbody.
Qed.



End FetchCache.

(** * More about the [hardhat] plugin *)

Section HardhatMore.

Import Hardhat.

Context (E : Env) (cfg : HardhatConfig).

Implicit Types (w : World) (acc : list Contract) (paths : list string).

Lemma scan_loop_app paths1 paths2 acc w :
  contracts_loop cfg (paths1 ++ paths2) acc w
  = bind (contracts_loop cfg paths1 acc) (contracts_loop cfg paths2) w.
Proof.
  revert acc w. induction paths1 as [|path paths1 IH]; intros acc w; simpl; [done|].
  unfold bind.
  destruct (getContract cfg path w) as [[contract|e] w1]; [|done].
  destruct (no_length (abi contract)); apply IH.
Qed.

(** The loop of [contracts()] over artifacts that can all be read: it keeps,
    in the order of the scan, the contracts whose ABI has a length. *)
Lemma contracts_loop_readable paths arts fsys :
  Forall2 (fun path a => files fsys !! path = Some (FileArtifact a)) paths arts ->
  forall acc w,
    fs w = fsys ->
    exists w',
      contracts_loop cfg paths acc w
      = (Ok (acc ++ map (fun a => {| abi := artifact_abi a;
                                     name := getContractName cfg a |})
                      (List.filter (fun a => negb (no_length (artifact_abi a))) arts))%list,
         w')
      /\ fs w' = fsys.
Proof.
  induction 1 as [|path a paths arts Hfile _ IH]; intros acc w Hfs; simpl.
  - exists w. by rewrite app_nil_r.
  - rewrite <- Hfs in Hfile. unfold bind at 1.
    rewrite (getContract_artifact _ _ _ _ Hfile). simpl.
    destruct (no_length (artifact_abi a)); simpl.
    + by apply IH.
    + destruct (IH (acc ++ [{| abi := artifact_abi a; name := getContractName cfg a |}])%list
                  (logged (ReadJSON path) w) Hfs) as (w' & Hloop & Hfs').
      exists w'. by rewrite Hloop, <- app_assoc.
Qed.

Lemma run_if_any_none w : run_if_any E cfg None w = (Ok tt, w).
Proof. reflexivity. Qed.

(** X7: when the clean and the build step succeed, the artifacts directory
    exists and every artifact the scan finds can be read, [contracts()]
    returns, in the order of the scan, one contract for each artifact whose
    ABI has a length, with that ABI and the name [namePrefix] followed by
    [contractName]. *)
Theorem hardhat_contracts_are_the_artifacts_with_an_abi w w1 w2 paths arts :
  run_if_any E cfg (clean_command E cfg) w = (Ok tt, w1) ->
  run_if_any E cfg (build_command E cfg) w1 = (Ok tt, w2) ->
  artifactsDirectory cfg ∈ directories (fs w2) ->
  fst (getArtifactPaths E cfg (artifactsDirectory cfg)
         (logged (PathExistsSync (artifactsDirectory cfg)) w2)) = Ok paths ->
  Forall2 (fun path a => files (fs w2) !! path = Some (FileArtifact a)) paths arts ->
  fst (contracts E cfg w)
  = Ok (map (fun a => {| abi := artifact_abi a;
                         name := namePrefix cfg +:+ contractName a |})
          (List.filter (fun a => negb (no_length (artifact_abi a))) arts)).
Proof.
  intros Hclean Hbuild Hdir Hglob Hfiles.
  rewrite contracts_steps. unfold bind at 1. rewrite Hclean.
  unfold bind at 1. rewrite Hbuild.
  unfold artifact_scan, bind at 1, pathExistsSync.
  rewrite bool_decide_eq_true_2 by done. simpl.
  unfold bind at 1.
  destruct (getArtifactPaths E cfg (artifactsDirectory cfg)
              (logged (PathExistsSync (artifactsDirectory cfg)) w2))
    as [[paths'|e] w3] eqn:Hscan; simpl in Hglob; [|discriminate].
  injection Hglob as ->.
  assert (Hfs : fs w3 = fs w2).
  { unfold getArtifactPaths, globby in Hscan. by injection Hscan as _ <-. }
  destruct (contracts_loop_readable paths arts (fs w2) Hfiles [] w3 Hfs)
    as (w' & Hloop & _).
  by rewrite Hloop.
Qed.

(** X8: when the clean and the build step succeed but neither a directory
    nor a file is at the artifacts path, [contracts()] fails with
    [Artifacts not found.], having searched and read nothing. *)
Theorem hardhat_contracts_without_artifacts_directory w w1 w2 :
  run_if_any E cfg (clean_command E cfg) w = (Ok tt, w1) ->
  run_if_any E cfg (build_command E cfg) w1 = (Ok tt, w2) ->
  artifactsDirectory cfg ∉ directories (fs w2) ->
  files (fs w2) !! artifactsDirectory cfg = None ->
  contracts E cfg w
  = (Err (JsError "Artifacts not found."),
     logged (PathExistsSync (artifactsDirectory cfg)) w2).
Proof.
  intros Hclean Hbuild Hdir Hfile.
  rewrite contracts_steps. unfold bind at 1. rewrite Hclean.
  unfold bind at 1. rewrite Hbuild.
  unfold artifact_scan, bind at 1, pathExistsSync.
  rewrite bool_decide_eq_false_2 by done.
  rewrite bool_decide_eq_false_2; [done|].
  rewrite Hfile. by intros [? ?].
Qed.

(** X9: the loop of [contracts()] fails at the first artifact that cannot
    be read, with the error of that read: [ENOENT] for a path that is gone,
    a syntax error for a file that is not JSON.  The contracts gathered up
    to there are not returned. *)
Theorem hardhat_contracts_loop_fails_at_unreadable_artifact
    before arts path after acc w :
  Forall2 (fun p a => files (fs w) !! p = Some (FileArtifact a)) before arts ->
  (files (fs w) !! path = None ->
   fst (contracts_loop cfg (before ++ path :: after) acc w) = Err (ENOENT path))
  /\ (files (fs w) !! path = Some FileNotJSON ->
      fst (contracts_loop cfg (before ++ path :: after) acc w)
      = Err (JSONSyntaxError path)).
Proof.
  intros Hbefore.
  destruct (contracts_loop_readable before arts (fs w) Hbefore acc w eq_refl)
    as (w' & Hloop & Hfs).
  assert (Hrest : forall res,
             fst (getContract cfg path w') = Err res ->
             fst (contracts_loop cfg (before ++ path :: after) acc w) = Err res).
  { intros res Hget. rewrite scan_loop_app. unfold bind at 1. rewrite Hloop.
    simpl. unfold bind at 1.
    destruct (getContract cfg path w') as [[contract|e] w1]; simpl in Hget; [done|].
    by injection Hget as ->. }
  split; intros Hfile; apply Hrest; rewrite getContract_result, Hfs, Hfile; reflexivity.
Qed.

Lemma js_split_app_no_separator sep a b :
  (forall c, In c (list_ascii_of_string a) -> c <> sep) ->
  js_split sep (a +:+ String sep b) = a :: js_split sep b.
Proof.
  induction a as [|c a IH]; intros Ha; simpl.
  - by rewrite Ascii.eqb_refl.
  - assert (Hc : Ascii.eqb c sep = false) by (apply Ascii.eqb_neq, Ha; by left).
    rewrite Hc, IH; [done|]. intros c' Hin. apply Ha. by right.
Qed.

(** X10: with neither [clean] nor [build] supplied and a package manager
    whose name has no space, [contracts()] first runs [<pm> hardhat clean]
    and, when the call succeeds, [<pm> hardhat compile] next, both in the
    resolved project path. *)
Theorem hardhat_default_commands w :
  clean (commands cfg) = None ->
  build (commands cfg) = None ->
  (forall c, In c (list_ascii_of_string (packageManager E)) -> c <> " "%char) ->
  exists rest,
    log (snd (contracts E cfg w))
    = (log w ++ Execa (packageManager E) ["hardhat"; "clean"] (resolve E (project cfg))
             :: rest)%list
    /\ (is_ok (fst (contracts E cfg w)) = true ->
        exists rest',
          rest = Execa (packageManager E) ["hardhat"; "compile"] (resolve E (project cfg))
                 :: rest').
Proof.
  intros Hclean Hbuild Hpm.
  assert (Hc : clean_command E cfg = Some (packageManager E +:+ " hardhat clean")).
  { unfold clean_command. rewrite Hclean. simpl. by destruct (packageManager E). }
  assert (Hb : build_command E cfg = Some (packageManager E +:+ " hardhat compile")).
  { unfold build_command. rewrite Hbuild. simpl. by destruct (packageManager E). }
  assert (Hpc : process_of E cfg (packageManager E +:+ " hardhat clean")
                = Execa (packageManager E) ["hardhat"; "clean"] (resolve E (project cfg))).
  { unfold process_of.
    change " hardhat clean" with (String " " "hardhat clean").
    by rewrite js_split_app_no_separator. }
  assert (Hpb : process_of E cfg (packageManager E +:+ " hardhat compile")
                = Execa (packageManager E) ["hardhat"; "compile"] (resolve E (project cfg))).
  { unfold process_of.
    change " hardhat compile" with (String " " "hardhat compile").
    by rewrite js_split_app_no_separator. }
  destruct (contracts_log E cfg w) as (builds & scans & Hlog & _ & _ & Hok).
  rewrite Hc, Hb, Hpc, Hpb in *. simpl in Hlog.
  exists (builds ++ scans)%list. split; [done|].
  intros Hsuccess. destruct (Hok Hsuccess) as [-> _]. simpl. eauto.
Qed.

(** X11: a command given as [false] or as the empty string is not run: with
    [clean] and [build] both so, [contracts()] is the artifact scan alone,
    and starts no process. *)
Theorem hardhat_disabled_commands_run_nothing w :
  clean (commands cfg) = Some CommandFalse
  \/ clean (commands cfg) = Some (CommandString "") ->
  build (commands cfg) = Some CommandFalse
  \/ build (commands cfg) = Some (CommandString "") ->
  contracts E cfg w = artifact_scan E cfg w
  /\ exists events,
      log (snd (contracts E cfg w)) = (log w ++ events)%list
      /\ forallb is_scan_event events = true.
Proof.
  intros Hclean Hbuild.
  assert (Heq : contracts E cfg w = artifact_scan E cfg w).
  { rewrite contracts_steps. unfold clean_command, build_command.
    by destruct Hclean as [-> | ->], Hbuild as [-> | ->]. }
  split; [done|]. rewrite Heq.
  destruct (artifact_scan_log E cfg w) as (events & Hlog & Hscan).
  exists (PathExistsSync (artifactsDirectory cfg) :: events). by rewrite Hlog.
Qed.

(** X12: when a command is missing and the version check fails,
    [validate()] fails with its own message, which says how to install
    hardhat ([npm install --save hardhat] for npm, [<pm> add hardhat] for
    any other package manager); the error of the check itself is dropped.
    When the check succeeds, so does [validate()]. *)
Theorem hardhat_validate_reports_how_to_install w :
  clean (commands cfg) = None \/ build (commands cfg) = None
  \/ rebuild (commands cfg) = None ->
  let check :=
    run_process E (packageManager E) ["hardhat"; "--version"] (resolve E (project cfg)) w in
  (is_ok check = false ->
   (packageManager E = "npm" ->
    fst (validate E cfg w)
    = Err (JsError ("hardhat must be installed to use Hardhat plugin." +:+ newline
                    +:+ "To install, run: npm install --save hardhat.")))
   /\ (packageManager E <> "npm" ->
       fst (validate E cfg w)
       = Err (JsError ("hardhat must be installed to use Hardhat plugin." +:+ newline
                       +:+ "To install, run: " +:+ packageManager E
                       +:+ " add hardhat."))))
  /\ (is_ok check = true -> fst (validate E cfg w) = Ok tt).
Proof.
  intros Hmissing check.
  assert (Hvalidate :
            validate E cfg w
            = bind (getPackageManager E)
                (fun pm =>
                   try_catch (execa E pm ["hardhat"; "--version"] (resolve E (project cfg)))
                     (fun _ =>
                        throw (JsError
                                 ("hardhat must be installed to use Hardhat plugin."
                                  +:+ newline +:+ "To install, run: " +:+ pm +:+ " "
                                  +:+ (if String.eqb pm "npm" then "install --save" else "add")
                                  +:+ " hardhat.")))) w).
  { unfold validate.
    destruct (clean (commands cfg)), (build (commands cfg)), (rebuild (commands cfg));
      try reflexivity.
    destruct Hmissing as [?|[?|?]]; discriminate. }
  rewrite Hvalidate. unfold bind, getPackageManager, ret, try_catch, execa, throw.
  fold check. destruct check as [fs'|e]; simpl; split; try done.
  intros _. split.
  - intros ->. reflexivity.
  - intros Hpm. apply String.eqb_neq in Hpm. by rewrite Hpm.
Qed.

Lemma onRemove_loop_unreadable before unreadable after removed e fsys :
  Forall (fun p => exists a, files fsys !! p = Some (FileArtifact a)
                             /\ getContractName cfg a <> removed) before ->
  (forall w, fs w = fsys -> fst (getContract cfg unreadable w) = Err e) ->
  forall w,
    fs w = fsys ->
    fst (onRemove_loop cfg (before ++ unreadable :: after) removed w) = Err e.
Proof.
  intros Hbefore Hunreadable.
  induction Hbefore as [|p before (a & Hfile & Hname) _ IH]; intros w Hfs; simpl.
  - unfold bind. specialize (Hunreadable w Hfs).
    destruct (getContract cfg unreadable w) as [[contract|e'] w1];
      simpl in Hunreadable; [done|]. by injection Hunreadable as ->.
  - rewrite <- Hfs in Hfile. unfold bind at 1.
    rewrite (getContract_artifact _ _ _ _ Hfile). simpl.
    apply String.eqb_neq in Hname. rewrite Hname. by apply IH.
Qed.

(** X13: [onRemove] fails when it meets an artifact that cannot be read
    before any artifact with the removed name: it rejects with the error of
    that read, whatever the artifacts after it are. *)
Theorem onRemove_fails_at_unreadable_artifact path w before unreadable after e :
  fst (getArtifactPaths E cfg (artifactsDirectory cfg)
         (logged (ConsoleLog ["onRemove"; path]) w))
  = Ok (before ++ unreadable :: after)%list ->
  Forall (fun p => exists c, fst (getContract cfg p w) = Ok c
                             /\ name c <> removedContractName E cfg path) before ->
  fst (getContract cfg unreadable w) = Err e ->
  fst (onRemove E cfg path w) = Err e.
Proof.
  intros Hscan Hbefore Hunreadable.
  destruct (onRemove_scan E cfg path w _ Hscan) as (w1 & Hfs & ->).
  apply (onRemove_loop_unreadable before unreadable after _ e (fs w)); [| |done].
  - eapply Forall_impl; [exact Hbefore|]. intros p (c & Hc & Hname). simpl.
    rewrite getContract_result in Hc.
    destruct (files (fs w) !! p) as [[a|]|]; try discriminate.
    injection Hc as <-. eauto.
  - intros w0 Hw0. rewrite getContract_result in *. by rewrite Hw0.
Qed.

Lemma prefix_refl s : String.prefix s s = true.
Proof. induction s as [|c s IH]; simpl; [done|]. by destruct (ascii_dec c c). Qed.

Lemma substring_nothing n s : String.substring n 0 s = EmptyString.
Proof.
  revert n. induction s as [|c s IH]; intros [|n]; simpl; auto.
Qed.

(** Removing the extension from a name that ends with it gives back what is
    before it, when the first character of the extension does not occur
    there. *)
Lemma js_remove_first_app c ext stem :
  ~ In c (list_ascii_of_string stem) ->
  js_remove_first (String c ext) (stem +:+ String c ext) = stem.
Proof.
  induction stem as [|a stem IH]; intros Hc.
  - change (EmptyString +:+ String c ext) with (String c ext).
    unfold js_remove_first. rewrite prefix_refl, Nat.sub_diag.
    apply substring_nothing.
  - change (String a stem +:+ String c ext) with (String a (stem +:+ String c ext)).
    simpl. destruct (ascii_dec c a) as [->|Hne]; [destruct Hc; by left|].
    rewrite IH; [done|]. intros Hin. apply Hc. by right.
Qed.

(** X14: for an artifact file named after its contract ([basename] is
    [contractName] followed by the extension, whose first character does not
    occur in [contractName]), the name [onRemove] derives from the path is
    the name [onAdd] gave the contract. *)
Theorem onRemove_name_is_the_name_onAdd_gave path a w c ext :
  files (fs w) !! path = Some (FileArtifact a) ->
  extname E path = String c ext ->
  basename E path = contractName a +:+ extname E path ->
  ~ In c (list_ascii_of_string (contractName a)) ->
  exists contract,
    fst (onAdd cfg path w) = Ok contract
    /\ removedContractName E cfg path = name contract.
Proof.
  intros Hfile Hext Hbase Hc.
  exists {| abi := artifact_abi a; name := getContractName cfg a |}. split.
  - unfold onAdd, bind at 1, console_log.
    rewrite getContract_result. simpl. by rewrite Hfile.
  - unfold removedContractName, getContractName. simpl.
    by rewrite Hbase, Hext, js_remove_first_app.
Qed.

(** X15: the watch hooks do not drop anything: for an artifact that can be
    read, [onAdd] and [onChange] both return its contract, with the ABI as
    it is and the name [namePrefix] followed by [contractName], even when
    the ABI has no length and the loop of [contracts()] leaves it out. *)
Theorem watch_hooks_return_every_artifact path a w :
  files (fs w) !! path = Some (FileArtifact a) ->
  fst (onAdd cfg path w)
  = Ok {| abi := artifact_abi a; name := namePrefix cfg +:+ contractName a |}
  /\ fst (onChange cfg path w) = fst (onAdd cfg path w)
  /\ (no_length (artifact_abi a) = true ->
      fst (contracts_loop cfg [path] [] w) = Ok []).
Proof.
  intros Hfile.
  assert (Hadd : fst (onAdd cfg path w)
                 = Ok {| abi := artifact_abi a; name := namePrefix cfg +:+ contractName a |}).
  { unfold onAdd, bind at 1, console_log.
    rewrite getContract_result. simpl. by rewrite Hfile. }
  split; [done|]. split.
  - rewrite Hadd. unfold onChange, bind at 1, console_log.
    rewrite getContract_result. simpl. by rewrite Hfile.
  - intros Hlen. simpl. unfold bind at 1.
    rewrite (getContract_artifact _ path a _ Hfile). simpl. by rewrite Hlen.
Qed.

(** X16: [watch.command] is undefined exactly when [rebuild] is [false] or
    the empty string.  Otherwise calling it succeeds, leaves the files as
    they are and does four things, in this order: it logs that the project
    is watched, starts watching the sources directory, and registers the
    shutdown for [SIGINT] and for [SIGTERM]; it starts no process. *)
Theorem watch_command_sets_up_the_watcher :
  (watch_command E cfg = None
   <-> rebuild (commands cfg) = Some CommandFalse
       \/ rebuild (commands cfg) = Some (CommandString ""))
  /\ (forall run w,
        watch_command E cfg = Some run ->
        exists listener,
          run w
          = (Ok listener,
             {| fs := fs w;
                log := (log w
                        ++ [LoggerLog ("Watching Hardhat project for changes at "
                                       +:+ quote +:+ project cfg +:+ quote +:+ ".");
                            ChokidarWatch (sourcesDirectory cfg);
                            ProcessOnce "SIGINT";
                            ProcessOnce "SIGTERM"])%list |})).
Proof.
  split.
  - unfold watch_command, rebuild_wanted.
    destruct (rebuild (commands cfg)) as [[|s]|]; simpl.
    + split; [by left|done].
    + destruct (String.eqb s "") eqn:Hs; simpl.
      * apply String.eqb_eq in Hs as ->. split; [by right|done].
      * apply String.eqb_neq in Hs. split; [done|].
        intros [?|[= ->]]; [discriminate|done].
    + split; [done|]. intros [?|?]; discriminate.
  - intros run w. unfold watch_command.
    destruct (rebuild_wanted cfg); [|discriminate]. intros [= <-].
    unfold bind, logger_log, getPackageManager, ret, logged. simpl.
    destruct (rebuild (commands cfg)) as [[|s]|]; simpl;
      try (eexists; by rewrite <- !app_assoc).
    destruct (String.eqb s ""); simpl; eexists; by rewrite <- !app_assoc.
Qed.




End HardhatMore.

(** * The further properties on concrete runs *)

Section MoreRuns.

Import FetchExample FetchCacheExample HardhatExample HardhatScanExample.

Lemma fetch_cache_round_trip_witness :
  fst (Fetch.contracts offline two
         (snd (Fetch.contracts
                 (serving [(mintUrl, JArray mintAbi); (registryUrl, JArray registryAbi)])
                 two no_cache)))
  = Ok [Fetch.resolved wagmiMint (JArray mintAbi);
        Fetch.resolved ensRegistry (JArray registryAbi)].
Proof.
  apply (fetch_cache_round_trip
           (serving [(mintUrl, JArray mintAbi); (registryUrl, JArray registryAbi)])
           two offline no_cache
           [Fetch.resolved wagmiMint (JArray mintAbi);
            Fetch.resolved ensRegistry (JArray registryAbi)]
           (snd (Fetch.contracts
                   (serving [(mintUrl, JArray mintAbi); (registryUrl, JArray registryAbi)])
                   two no_cache))).
  - reflexivity.
  - apply NoDup_cons. split; [|apply NoDup_singleton].
    intros Hin. apply list_elem_of_In in Hin as [Heq|[]]. discriminate.
  - repeat constructor.
  - reflexivity.
  - intros r w0. by eexists.
  - reflexivity.
Defined.

Lemma fetch_contracts_touches_only_its_cache_files_witness :
  Fetch.files (snd (Fetch.contracts (online (JArray mintAbi)) config
                      (cached (JArray [])))) !! registryPath
  = Fetch.files (cached (JArray [])) !! registryPath.
Proof.
  apply (fetch_contracts_touches_only_its_cache_files
           (online (JArray mintAbi)) config (cached (JArray [])) registryPath).
  intros contract [<-|[]]. discriminate.
Defined.

Lemma fetch_failure_with_unusable_cache_file_witness :
  fst (Fetch.contracts_body offline config wagmiMint [] (cached JNull))
  = Err (Thrown "request failed").
Proof.
  apply (proj1 (fetch_failure_with_unusable_cache_file
                  offline config wagmiMint [] (cached JNull) abiRequest
                  (Thrown "request failed") eq_refl eq_refl) JNull);
    reflexivity.
Defined.

Lemma fetch_request_error_witness :
  Fetch.contracts_loop (online (JArray mintAbi)) strict [anonymous; wagmiMint] [] no_cache
  = (Err (Thrown "no address"), no_cache).
Proof.
  apply (fetch_request_error_stops_before_any_io
           (online (JArray mintAbi)) strict anonymous [wagmiMint] [] no_cache).
  reflexivity.
Defined.

(** The first contract is served, the second is not and has no cache file:
    the call fails, and the ABI of the first stays in the cache. *)
Lemma fetch_contracts_stops_at_first_failure_witness :
  fst (Fetch.contracts_loop (serving [(mintUrl, JArray mintAbi)]) two
         ([wagmiMint] ++ ensRegistry :: [anonymous]) [] no_cache)
  = Err (ENOENT registryPath)
  /\ Fetch.files
       (snd (Fetch.contracts_loop (serving [(mintUrl, JArray mintAbi)]) two
               ([wagmiMint] ++ ensRegistry :: [anonymous]) [] no_cache)) !! cachePath
     = Some (Fetch.FileJSON (JArray mintAbi)).
Proof.
  rewrite (fetch_contracts_stops_at_first_failure
             (serving [(mintUrl, JArray mintAbi)]) two
             [wagmiMint] ensRegistry [anonymous] [] no_cache
             [Fetch.resolved wagmiMint (JArray mintAbi)]
             (snd (Fetch.contracts_loop (serving [(mintUrl, JArray mintAbi)]) two
                     [wagmiMint] [] no_cache))
             (ENOENT registryPath)
             (snd (Fetch.contracts_body (serving [(mintUrl, JArray mintAbi)]) two
                     ensRegistry [Fetch.resolved wagmiMint (JArray mintAbi)]
                     (snd (Fetch.contracts_loop (serving [(mintUrl, JArray mintAbi)]) two
                             [wagmiMint] [] no_cache))))
             eq_refl eq_refl).
  split; reflexivity.
Defined.


Lemma hardhat_contracts_are_the_artifacts_with_an_abi_witness :
  fst (Hardhat.contracts (env "" [tokenPath; interfacePath])
         (Hardhat.config_of_project "proj") built)
  = Ok [{| Hardhat.abi := Some (JArray transferAbi); Hardhat.name := "Token" |}].
Proof.
  apply (hardhat_contracts_are_the_artifacts_with_an_abi
           (env "" [tokenPath; interfacePath]) (Hardhat.config_of_project "proj") built
           (snd (Hardhat.run_if_any (env "" [tokenPath; interfacePath])
                   (Hardhat.config_of_project "proj") (Some "pnpm hardhat clean") built))
           (snd (Hardhat.run_if_any (env "" [tokenPath; interfacePath])
                   (Hardhat.config_of_project "proj") (Some "pnpm hardhat compile")
                   (snd (Hardhat.run_if_any (env "" [tokenPath; interfacePath])
                           (Hardhat.config_of_project "proj") (Some "pnpm hardhat clean")
                           built))))
           [tokenPath; interfacePath] [token; interface]).
  - reflexivity.
  - reflexivity.
  - change ("proj/artifacts" ∈ ({[ "proj/artifacts" ]} : gset string)).
    by apply elem_of_singleton.
  - reflexivity.
  - repeat constructor.
Defined.

Lemma hardhat_contracts_without_artifacts_directory_witness :
  Hardhat.contracts (env "" []) (with_commands all_off) unbuilt
  = (Err (JsError "Artifacts not found."),
     {| Hardhat.fs := Hardhat.fs unbuilt;
        Hardhat.log := [Hardhat.PathExistsSync "proj/artifacts"] |}).
Proof.
  apply (hardhat_contracts_without_artifacts_directory
           (env "" []) (with_commands all_off) unbuilt unbuilt unbuilt).
  - reflexivity.
  - reflexivity.
  - apply not_elem_of_empty.
  - reflexivity.
Defined.

Lemma hardhat_contracts_loop_fails_at_unreadable_artifact_witness :
  fst (Hardhat.contracts_loop (Hardhat.config_of_project "proj")
         ([tokenPath] ++ gonePath :: [interfacePath]) [] built)
  = Err (ENOENT gonePath).
Proof.
  apply (proj1 (hardhat_contracts_loop_fails_at_unreadable_artifact
                  (Hardhat.config_of_project "proj")
                  [tokenPath] [token] gonePath [interfacePath] [] built
                  ltac:(repeat constructor))).
  reflexivity.
Defined.

Lemma hardhat_default_commands_witness :
  exists rest,
    Hardhat.log (snd (Hardhat.contracts (env "" [tokenPath])
                        (Hardhat.config_of_project "proj") built))
    = ([] ++ Hardhat.Execa "pnpm" ["hardhat"; "clean"] "/work/proj" :: rest)%list
    /\ (is_ok (fst (Hardhat.contracts (env "" [tokenPath])
                      (Hardhat.config_of_project "proj") built)) = true ->
        exists rest',
          rest = Hardhat.Execa "pnpm" ["hardhat"; "compile"] "/work/proj" :: rest').
Proof.
  apply (hardhat_default_commands (env "" [tokenPath])
           (Hardhat.config_of_project "proj") built).
  - reflexivity.
  - reflexivity.
  - intros c Hin. simpl in Hin.
    repeat (destruct Hin as [<-|Hin]; [discriminate|]). destruct Hin.
Defined.

Lemma hardhat_disabled_commands_run_nothing_witness :
  Hardhat.contracts (env "" [tokenPath]) (with_commands all_off) built
  = Hardhat.artifact_scan (env "" [tokenPath]) (with_commands all_off) built.
Proof.
  apply (hardhat_disabled_commands_run_nothing
           (env "" [tokenPath]) (with_commands all_off) built); by left.
Defined.

Lemma hardhat_validate_reports_how_to_install_witness :
  fst (Hardhat.validate (env "pnpm" []) (Hardhat.config_of_project "proj") built)
  = Err (JsError ("hardhat must be installed to use Hardhat plugin." +:+ Hardhat.newline
                  +:+ "To install, run: pnpm add hardhat.")).
Proof.
  apply (proj2 (proj1 (hardhat_validate_reports_how_to_install
                         (env "pnpm" []) (Hardhat.config_of_project "proj") built
                         (or_introl eq_refl)) eq_refl)).
  discriminate.
Defined.

Lemma onRemove_fails_at_unreadable_artifact_witness :
  fst (Hardhat.onRemove (env "" [interfacePath; gonePath; tokenPath])
         (Hardhat.config_of_project "proj") movedPath built)
  = Err (ENOENT gonePath).
Proof.
  apply (onRemove_fails_at_unreadable_artifact
           (env "" [interfacePath; gonePath; tokenPath])
           (Hardhat.config_of_project "proj") movedPath built
           [interfacePath] gonePath [tokenPath] (ENOENT gonePath)).
  - reflexivity.
  - constructor; [|constructor].
    exists {| Hardhat.abi := Some (JArray []); Hardhat.name := "IToken" |}.
    split; [reflexivity|discriminate].
  - reflexivity.
Defined.

Lemma onRemove_name_is_the_name_onAdd_gave_witness :
  exists contract,
    fst (Hardhat.onAdd (Hardhat.config_of_project "proj") tokenPath built) = Ok contract
    /\ Hardhat.removedContractName (env "" []) (Hardhat.config_of_project "proj") tokenPath
       = Hardhat.name contract.
Proof.
  apply (onRemove_name_is_the_name_onAdd_gave
           (env "" []) (Hardhat.config_of_project "proj") tokenPath token built
           "."%char "json").
  - reflexivity.
  - reflexivity.
  - reflexivity.
  - simpl. intros Hin.
    repeat (destruct Hin as [Hin|Hin]; [discriminate|]). destruct Hin.
Defined.

Lemma watch_hooks_return_every_artifact_witness :
  fst (Hardhat.onAdd (Hardhat.config_of_project "proj") interfacePath built)
  = Ok {| Hardhat.abi := Some (JArray []); Hardhat.name := "IToken" |}
  /\ fst (Hardhat.contracts_loop (Hardhat.config_of_project "proj") [interfacePath] [] built)
     = Ok [].
Proof.
  split.
  - apply (proj1 (watch_hooks_return_every_artifact
                    (Hardhat.config_of_project "proj") interfacePath interface built
                    eq_refl)).
  - apply (proj2 (proj2 (watch_hooks_return_every_artifact
                           (Hardhat.config_of_project "proj") interfacePath interface built
                           eq_refl))).
    reflexivity.
Defined.

Lemma watch_command_sets_up_the_watcher_witness :
  Hardhat.watch_command (env "" []) (with_commands all_off) = None
  /\ exists listener,
      default_run built
      = (Ok listener,
         {| Hardhat.fs := Hardhat.fs built;
            Hardhat.log :=
              [Hardhat.LoggerLog ("Watching Hardhat project for changes at "
                                  +:+ Hardhat.quote +:+ "proj" +:+ Hardhat.quote +:+ ".");
               Hardhat.ChokidarWatch "proj/contracts";
               Hardhat.ProcessOnce "SIGINT";
               Hardhat.ProcessOnce "SIGTERM"] |}).
Proof.
  split.
  - apply (proj1 (watch_command_sets_up_the_watcher (env "" []) (with_commands all_off))).
    by left.
  - apply (proj2 (watch_command_sets_up_the_watcher
                    (env "" []) (Hardhat.config_of_project "proj")) default_run built).
    reflexivity.
Defined.


End MoreRuns.
